(** * OpenMemory dashboard: session bootstrap and notification routing

    A shallow embedding of the client-side code that decides how a visitor is
    authenticated and how the outcome of a create-memory request is shown:

    - [ui/services/keycloak.ts]                          (module [KeycloakService])
    - [ui/app/auth/callback/page.tsx]                    (module [AuthCallbackPage])
    - [ui/app/login/page.tsx]                            (module [LoginPage])
    - [ui/app/settings/page.tsx]                         (module [SettingsPage])
    - the memories page                                  (modules [MemoriesPage],
                                                          [MemoriesView])
    - [ui/app/memories/components/CreateMemoryDialog.tsx] (module [CreateMemoryDialog])
    - the dialog version that also accepts objects       (module [CreateMemoryDialogChecked])
    - the silent-callback page                           (module [SilentCallbackPage])
    - the SSO handlers on a storage that refuses writes  (module [RealStorage])
    - [ui/services/uiConfig.ts], [ui/hooks/useUIConfig.ts] (module [UiConfig])

    JavaScript strings are sequences of UTF-16 code units, Web Storage areas
    are finite maps from strings to strings, and every handler is a program in
    a small state-and-exception monad over the browser [World].  What the
    handlers do to the outside (storage writes, navigation, timers, React
    state setters, toasts) is recorded in order in an event trace.

    The OpenID-Connect client, the backend and the [useMemoriesApi] hook are
    not part of these files: what they answer is an input of the handlers.
    Console output is left out, and the toast functions are taken not to
    throw.  The page modules run the handlers on storage areas that take
    every write, and [handleCreateMemory] with a refresh that resolves.
    [RealStorage] gives the SSO handlers on a storage that can refuse a
    write and that the OIDC client writes to as well, and
    [handleCreateMemoryAwaiting] gives the dialog's catch block with a
    refresh that can reject; lemmas [accepting_storage] and
    [handleCreateMemoryAwaiting_run] relate the two settings. *)

From Stdlib Require Import String Ascii ZArith NArith List Lia.
From stdpp Require Import base option list gmap.
Import ListNotations.

Local Open Scope N_scope.

(** ** JavaScript values *)

Module Js.

(** A JavaScript string: its UTF-16 code units. *)
Abbreviation jsstring := (list N).

(** A source literal (ASCII) as a JavaScript string. *)
Definition lit (s : string) : jsstring :=
  List.map N_of_ascii (list_ascii_of_string s).

(** A number as [JSON.parse] reads it: (-1)^neg * mant * 10^exp10. *)
Record JsNumber := { neg : bool; mant : N; exp10 : Z }.

#[warnings="-register-all"]
Inductive JsValue :=
| JUndefined
| JNull
| JBool (b : bool)
| JNum (n : JsNumber)
| JStr (s : jsstring)
| JArr (items : list JsValue)
| JObj (props : list (jsstring * JsValue)).

(** The double nearest to [mant * 10^exp10] is (plus or minus) zero exactly
    when the magnitude is at most half the least subnormal, 2^-1075. *)
Definition number_is_zero (n : JsNumber) : bool :=
  if mant n =? 0 then true
  else if (0 <=? exp10 n)%Z then false
  else (Z.of_N (mant n) * 2 ^ 1075 <=? 10 ^ (- exp10 n))%Z.

(** ToBoolean. *)
Definition truthy (v : JsValue) : bool :=
  match v with
  | JUndefined | JNull => false
  | JBool b => b
  | JNum n => negb (number_is_zero n)
  | JStr s => match s with [] => false | _ => true end
  | JArr _ | JObj _ => true
  end.

(** [a || b] *)
Definition js_or (a b : JsValue) : JsValue := if truthy a then a else b.

(** [a && b] *)
Definition js_and (a b : JsValue) : JsValue := if truthy a then b else a.

(** [v === "literal"]: only a string with the same code units is equal. *)
Definition strict_eq_str (v : JsValue) (s : jsstring) : bool :=
  match v with
  | JStr x => bool_decide (x = s)
  | _ => false
  end.

(** The last binding of [k]: [JSON.parse] keeps the last of duplicate keys. *)
Fixpoint lookup_prop (k : jsstring) (props : list (jsstring * JsValue))
  : option JsValue :=
  match props with
  | [] => None
  | (k', v) :: rest =>
      match lookup_prop k rest with
      | Some v' => Some v'
      | None => if bool_decide (k' = k) then Some v else None
      end
  end.

(** [v.k] for [k] one of "type" and "message", which no prototype defines:
    a TypeError ([None]) on undefined and null, the own property of an
    object, and undefined on every other value. *)
Definition get (v : JsValue) (k : jsstring) : option JsValue :=
  match v with
  | JUndefined | JNull => None
  | JObj props => Some (default JUndefined (lookup_prop k props))
  | _ => Some JUndefined
  end.

(** Values of type [string | null] or [string | undefined]. *)
Definition of_string_opt (absent : JsValue) (o : option jsstring) : JsValue :=
  match o with Some s => JStr s | None => absent end.

(** Truthiness of a [string | null]: present and not empty. *)
Definition truthy_str (o : option jsstring) : bool :=
  match o with
  | Some (_ :: _) => true
  | _ => false
  end.

(** [a || b] on two values of type [string | null]. *)
Definition or_str (a b : option jsstring) : option jsstring :=
  if truthy_str a then a else b.

(** [a || s] where [s] is a string: always a string. *)
Definition or_default (a : option jsstring) (s : jsstring) : jsstring :=
  match a with
  | Some (c :: r) => c :: r
  | _ => s
  end.

(** A [string | undefined] that is present and not the empty string. *)
Definition nonempty (o : option jsstring) : Prop :=
  exists c r, o = Some (c :: r).

(** ToString of a [string | undefined], as [Storage.setItem] applies it. *)
Definition to_string_undef (o : option jsstring) : jsstring :=
  match o with Some s => s | None => lit "undefined" end.

End Js.
Export Js.

(** ** JSON.parse *)

Module Json.

Inductive PResult (A : Type) :=
| POk (a : A) (rest : jsstring)
| PErr                              (* SyntaxError *)
| PFuel.                            (* recursion budget exhausted *)
Arguments POk {A} a rest.
Arguments PErr {A}.
Arguments PFuel {A}.

Definition c_tab := 9.
Definition c_lf := 10.
Definition c_cr := 13.
Definition c_space := 32.
Definition c_quote := 34.
Definition c_plus := 43.
Definition c_comma := 44.
Definition c_minus := 45.
Definition c_dot := 46.
Definition c_slash := 47.
Definition c_0 := 48.
Definition c_9 := 57.
Definition c_colon := 58.
Definition c_E := 69.
Definition c_lbracket := 91.
Definition c_backslash := 92.
Definition c_rbracket := 93.
Definition c_e := 101.
Definition c_lbrace := 123.
Definition c_rbrace := 125.

Definition is_ws (c : N) : bool :=
  (c =? c_tab) || (c =? c_lf) || (c =? c_cr) || (c =? c_space).

Fixpoint skip_ws (s : jsstring) : jsstring :=
  match s with
  | c :: rest => if is_ws c then skip_ws rest else s
  | [] => []
  end.

Definition is_digit (c : N) : bool := (c_0 <=? c) && (c <=? c_9).

Definition hex_digit (c : N) : option N :=
  if (48 <=? c) && (c <=? 57) then Some (c - 48)
  else if (65 <=? c) && (c <=? 70) then Some (c - 55)
  else if (97 <=? c) && (c <=? 102) then Some (c - 87)
  else None.

Definition hex4 (a b c d : N) : option N :=
  match hex_digit a, hex_digit b, hex_digit c, hex_digit d with
  | Some x, Some y, Some z, Some w => Some (((x * 16 + y) * 16 + z) * 16 + w)
  | _, _, _, _ => None
  end.

(** The escapes of one character after a backslash. *)
Definition simple_escape (c : N) : option N :=
  if c =? c_quote then Some c_quote
  else if c =? c_backslash then Some c_backslash
  else if c =? c_slash then Some c_slash
  else if c =? 98 then Some 8          (* \b *)
  else if c =? 102 then Some 12        (* \f *)
  else if c =? 110 then Some 10        (* \n *)
  else if c =? 114 then Some 13        (* \r *)
  else if c =? 116 then Some 9         (* \t *)
  else None.

(** The characters of a string up to its closing quote; [acc] holds the
    code units read so far, last first. *)
Fixpoint parse_chars (s : jsstring) (acc : jsstring) : PResult jsstring :=
  match s with
  | [] => PErr
  | c :: rest =>
      if c =? c_quote then POk (rev acc) rest
      else if c =? c_backslash then
        match rest with
        | [] => PErr
        | e :: rest1 =>
            if e =? 117 then          (* \uXXXX *)
              match rest1 with
              | h1 :: h2 :: h3 :: h4 :: rest2 =>
                  match hex4 h1 h2 h3 h4 with
                  | Some u => parse_chars rest2 (u :: acc)
                  | None => PErr
                  end
              | _ => PErr
              end
            else
              match simple_escape e with
              | Some u => parse_chars rest1 (u :: acc)
              | None => PErr
              end
        end
      else if c <? 32 then PErr       (* control characters are refused *)
      else parse_chars rest (c :: acc)
  end.

(** A string token: the opening quote, then [parse_chars]. *)
Definition parse_string (s : jsstring) : PResult jsstring :=
  match s with
  | c :: rest => if c =? c_quote then parse_chars rest [] else PErr
  | [] => PErr
  end.

(** A maximal run of decimal digits, folded into [acc]; also counts them. *)
Fixpoint parse_digits (s : jsstring) (acc : N) (count : nat)
  : N * nat * jsstring :=
  match s with
  | c :: rest =>
      if is_digit c then parse_digits rest (acc * 10 + (c - c_0)) (S count)
      else (acc, count, s)
  | [] => (acc, count, [])
  end.

(** int: a single 0, or a digit 1-9 followed by digits. *)
Definition parse_int (s : jsstring) : option (N * jsstring) :=
  match s with
  | c :: rest =>
      if c =? c_0 then Some (0, rest)
      else if is_digit c then
        let '(m, _, rest') := parse_digits rest (c - c_0) 1%nat in
        Some (m, rest')
      else None
  | [] => None
  end.

(** frac: nothing, or a dot and at least one digit.  Returns the mantissa
    extended by the fraction digits and how many there were. *)
Definition parse_frac (m : N) (s : jsstring) : option (N * nat * jsstring) :=
  match s with
  | c :: rest =>
      if c =? c_dot then
        let '(m', k, rest') := parse_digits rest m 0%nat in
        match k with
        | O => None
        | S _ => Some (m', k, rest')
        end
      else Some (m, 0%nat, s)
  | [] => Some (m, 0%nat, [])
  end.

(** exp: nothing, or e/E, an optional sign and at least one digit. *)
Definition parse_exp (s : jsstring) : option (Z * jsstring) :=
  match s with
  | c :: rest =>
      if (c =? c_e) || (c =? c_E) then
        let '(sign, rest1) :=
          match rest with
          | d :: r =>
              if d =? c_minus then (true, r)
              else if d =? c_plus then (false, r)
              else (false, rest)
          | [] => (false, rest)
          end in
        let '(x, k, rest2) := parse_digits rest1 0 0%nat in
        match k with
        | O => None
        | S _ => Some (if sign then (- Z.of_N x)%Z else Z.of_N x, rest2)
        end
      else Some (0%Z, s)
  | [] => Some (0%Z, [])
  end.

Definition parse_number (s : jsstring) : PResult JsNumber :=
  let '(sign, s1) :=
    match s with
    | c :: rest => if c =? c_minus then (true, rest) else (false, s)
    | [] => (false, s)
    end in
  match parse_int s1 with
  | None => PErr
  | Some (m, s2) =>
      match parse_frac m s2 with
      | None => PErr
      | Some (m', k, s3) =>
          match parse_exp s3 with
          | None => PErr
          | Some (x, s4) =>
              POk {| neg := sign; mant := m'; exp10 := (x - Z.of_nat k)%Z |} s4
          end
      end
  end.

(** [s] begins with the code units of [word]. *)
Fixpoint strip_prefix (word s : jsstring) : option jsstring :=
  match word with
  | [] => Some s
  | w :: word' =>
      match s with
      | c :: rest => if c =? w then strip_prefix word' rest else None
      | [] => None
      end
  end.

Definition parse_literal (s : jsstring) : PResult JsValue :=
  match strip_prefix (lit "true") s with
  | Some rest => POk (JBool true) rest
  | None =>
      match strip_prefix (lit "false") s with
      | Some rest => POk (JBool false) rest
      | None =>
          match strip_prefix (lit "null") s with
          | Some rest => POk JNull rest
          | None => PErr
          end
      end
  end.

(** Recursive descent over value, array elements and object members.
    Every call spends one unit of [fuel]. *)
Fixpoint parse_value (fuel : nat) (s : jsstring) : PResult JsValue :=
  match fuel with
  | O => PFuel
  | S f =>
      match skip_ws s with
      | [] => PErr
      | c :: rest =>
          if c =? c_lbrace then
            match skip_ws rest with
            | d :: rest' =>
                if d =? c_rbrace then POk (JObj []) rest'
                else parse_members f (d :: rest') []
            | [] => PErr
            end
          else if c =? c_lbracket then
            match skip_ws rest with
            | d :: rest' =>
                if d =? c_rbracket then POk (JArr []) rest'
                else parse_elements f (d :: rest') []
            | [] => PErr
            end
          else if c =? c_quote then
            match parse_chars rest [] with
            | POk str rest' => POk (JStr str) rest'
            | PErr => PErr
            | PFuel => PFuel
            end
          else if (c =? c_minus) || is_digit c then
            match parse_number (c :: rest) with
            | POk n rest' => POk (JNum n) rest'
            | PErr => PErr
            | PFuel => PFuel
            end
          else parse_literal (c :: rest)
      end
  end

(** [s] stands at the start of an element; [acc] holds the elements read
    so far, last first. *)
with parse_elements (fuel : nat) (s : jsstring) (acc : list JsValue)
  : PResult JsValue :=
  match fuel with
  | O => PFuel
  | S f =>
      match parse_value f s with
      | POk v rest =>
          match skip_ws rest with
          | c :: rest' =>
              if c =? c_comma then parse_elements f rest' (v :: acc)
              else if c =? c_rbracket then POk (JArr (rev (v :: acc))) rest'
              else PErr
          | [] => PErr
          end
      | PErr => PErr
      | PFuel => PFuel
      end
  end

(** [s] stands at the start of a member (after white space); [acc] holds
    the members read so far, last first. *)
with parse_members (fuel : nat) (s : jsstring) (acc : list (jsstring * JsValue))
  : PResult JsValue :=
  match fuel with
  | O => PFuel
  | S f =>
      match parse_string (skip_ws s) with
      | POk k rest =>
          match skip_ws rest with
          | c :: rest1 =>
              if c =? c_colon then
                match parse_value f rest1 with
                | POk v rest2 =>
                    match skip_ws rest2 with
                    | d :: rest3 =>
                        if d =? c_comma then parse_members f rest3 ((k, v) :: acc)
                        else if d =? c_rbrace
                             then POk (JObj (rev ((k, v) :: acc))) rest3
                        else PErr
                    | [] => PErr
                    end
                | PErr => PErr
                | PFuel => PFuel
                end
              else PErr
          | [] => PErr
          end
      | PErr => PErr
      | PFuel => PFuel
      end
  end.

(** Enough fuel for any text of this length (see [parse_value_fuel]). *)
Definition fuel_for (s : jsstring) : nat := (2 * length s + 1)%nat.

(** [JSON.parse(s)]: one value, then only white space.  [None] is a thrown
    SyntaxError. *)
Definition parse (s : jsstring) : option JsValue :=
  match parse_value (fuel_for s) s with
  | POk v rest => match skip_ws rest with [] => Some v | _ => None end
  | _ => None
  end.

(** What the three parsers guarantee at a given fuel: a result leaves
    strictly less text, and fuel above twice the length is never used up. *)
Definition value_ok (f : nat) : Prop :=
  forall s,
    (forall v rest, parse_value f s = POk v rest -> (length rest < length s)%nat)
    /\ ((2 * length s + 1 <= f)%nat -> parse_value f s <> PFuel).

Definition elements_ok (f : nat) : Prop :=
  forall s acc,
    (forall v rest, parse_elements f s acc = POk v rest
                    -> (length rest < length s)%nat)
    /\ ((2 * length s + 2 <= f)%nat -> parse_elements f s acc <> PFuel).

Definition members_ok (f : nat) : Prop :=
  forall s acc,
    (forall v rest, parse_members f s acc = POk v rest
                    -> (length rest < length s)%nat)
    /\ ((2 * length s + 2 <= f)%nat -> parse_members f s acc <> PFuel).

End Json.


(** ** The browser: environment, storage areas, identity provider, trace *)

Module Browser.

(** [process.env] as the pages read it, and [window.location.origin]. *)
Record Env := {
  NEXT_PUBLIC_KEYCLOAK_URL : option jsstring;
  NEXT_PUBLIC_KEYCLOAK_REALM : option jsstring;
  NEXT_PUBLIC_KEYCLOAK_CLIENT_ID : option jsstring;
  origin : jsstring
}.

(** [User.profile] of oidc-client-ts: [sub] is a string, the others are
    optional. *)
Record Profile := {
  sub : jsstring;
  preferred_username : option jsstring;
  name : option jsstring;
  email : option jsstring
}.

Record User := {
  profile : Profile;
  access_token : jsstring;
  expired : option bool            (* boolean | undefined *)
}.

(** A thrown value: an [Error] with its message, or anything else. *)
Inductive Thrown :=
| ErrorObj (message : jsstring)
| NonError.

Inductive Outcome (A : Type) :=
| Ok (a : A)
| Throw (e : Thrown).
Arguments Ok {A} a.
Arguments Throw {A} e.

(** What the OpenID-Connect client answers.  The library is not part of
    the repository: its answers are inputs.  [getUser] is asked several
    times by one handler, so its answer is indexed by the number of
    earlier calls. *)
Record Oidc := {
  signinRedirectCallback : Outcome (option User);
  getUser_answer : nat -> Outcome (option User)
}.

Record KeycloakConfig := {
  url : jsstring;
  realm : jsstring;
  clientId : jsstring;
  redirectUri : jsstring
}.

(** The settings [new UserManager] is built from.  [userStore] is always
    the durable store of the browser and is not repeated here. *)
Record UserManagerSettings := {
  authority : jsstring;
  client_id : jsstring;
  redirect_uri : jsstring;
  post_logout_redirect_uri : jsstring;
  response_type : jsstring;
  scope : jsstring;
  automaticSilentRenew : bool;
  silent_redirect_uri : jsstring
}.

(** The fields of the [keycloakService] singleton. *)
Record ServiceState := {
  userManager : option UserManagerSettings;
  config : option KeycloakConfig
}.

Inductive Store := SessionStore | LocalStore.

Inductive Status := StatusLoading | StatusSuccess | StatusError.

(** The object passed to [setCurrentUser]. *)
Record CurrentUser := {
  cu_userId : option jsstring;
  cu_userName : option jsstring;
  cu_apiKey : jsstring
}.

(** What a handler does to the outside, in the order it does it. *)
Inductive Event :=
| SetItem (st : Store) (key value : jsstring)
| Clear (st : Store)
| RouterPush (path : jsstring)
| SetTimeout (callback : Event) (ms : N)
| SetStatus (s : Status)
| SetError (m : jsstring)
| SetSuccess (b : bool)
| SetLoading (b : bool)
| SetUseKeycloak (b : bool)
| SetCurrentUser (u : CurrentUser)
| FetchMemories
| FetchUsers.

Record World := {
  hasWindow : bool;                          (* typeof window !== 'undefined' *)
  env : Env;
  oidc : Oidc;
  getUserCalls : nat;
  service : ServiceState;
  sessionStorage : gmap jsstring jsstring;
  localStorage : gmap jsstring jsstring;
  events : list Event
}.

Definition with_service (s : ServiceState) (w : World) : World :=
  {| hasWindow := hasWindow w; env := env w; oidc := oidc w;
     getUserCalls := getUserCalls w; service := s;
     sessionStorage := sessionStorage w; localStorage := localStorage w;
     events := events w |}.

Definition with_getUserCalls (n : nat) (w : World) : World :=
  {| hasWindow := hasWindow w; env := env w; oidc := oidc w;
     getUserCalls := n; service := service w;
     sessionStorage := sessionStorage w; localStorage := localStorage w;
     events := events w |}.

Definition with_stores (ss ls : gmap jsstring jsstring) (e : Event) (w : World)
  : World :=
  {| hasWindow := hasWindow w; env := env w; oidc := oidc w;
     getUserCalls := getUserCalls w; service := service w;
     sessionStorage := ss; localStorage := ls;
     events := events w ++ [e] |}.

(** *** The handler monad: state and exceptions *)

Definition M (A : Type) : Type := World -> Outcome A * World.

Definition ret {A} (a : A) : M A := fun w => (Ok a, w).

Definition bind {A B} (m : M A) (k : A -> M B) : M B :=
  fun w =>
    match m w with
    | (Ok a, w') => k a w'
    | (Throw e, w') => (Throw e, w')
    end.

Definition throw {A} (e : Thrown) : M A := fun w => (Throw e, w).

(** [try { body } catch (err) { handler(err) }] *)
Definition try_catch {A} (body : M A) (handler : Thrown -> M A) : M A :=
  fun w =>
    match body w with
    | (Ok a, w') => (Ok a, w')
    | (Throw e, w') => handler e w'
    end.

(** [try { body } finally { final }], for a [final] that does not throw. *)
Definition try_finally {A} (body : M A) (final : M unit) : M A :=
  fun w =>
    match body w with
    | (r, w') => (r, snd (final w'))
    end.

(** An awaited answer of the outside world. *)
Definition await {A} (o : Outcome A) : M A := fun w => (o, w).

Definition gets {A} (f : World -> A) : M A := fun w => (Ok (f w), w).

(** The world after one more event that leaves both stores alone. *)
Definition log (e : Event) (w : World) : World :=
  with_stores (sessionStorage w) (localStorage w) e w.

Definition emit (e : Event) : M unit := fun w => (Ok tt, log e w).

Definition run {A} (m : M A) (w : World) : World := snd (m w).

Definition result {A} (m : M A) (w : World) : Outcome A := fst (m w).

(** *** Web Storage *)

Definition area (st : Store) (w : World) : gmap jsstring jsstring :=
  match st with
  | SessionStore => sessionStorage w
  | LocalStore => localStorage w
  end.

(** [storage.getItem(key)]: the value, or null. *)
Definition getItem (st : Store) (key : jsstring) : M (option jsstring) :=
  fun w => (Ok (area st w !! key), w).

(** [storage.setItem(key, value)] on an area that takes the write;
    [RealStorage.setItem] below is the call on an area that can refuse it. *)
Definition setItem (st : Store) (key value : jsstring) : M unit :=
  fun w =>
    (Ok tt,
     match st with
     | SessionStore =>
         with_stores (<[key := value]> (sessionStorage w)) (localStorage w)
           (SetItem SessionStore key value) w
     | LocalStore =>
         with_stores (sessionStorage w) (<[key := value]> (localStorage w))
           (SetItem LocalStore key value) w
     end).

(** [storage.clear()] *)
Definition clear (st : Store) : M unit :=
  fun w =>
    (Ok tt,
     match st with
     | SessionStore => with_stores ∅ (localStorage w) (Clear SessionStore) w
     | LocalStore => with_stores (sessionStorage w) ∅ (Clear LocalStore) w
     end).

End Browser.
Export Browser.

Declare Scope handler_scope.
Delimit Scope handler_scope with handler.
Notation "x <- m ;; k" := (bind m (fun x => k))
  (at level 20, m at level 99, k at level 200, right associativity) : handler_scope.
Notation "m ;;; k" := (bind m (fun _ => k))
  (at level 100, k at level 200, right associativity) : handler_scope.
Open Scope handler_scope.

(** ** ui/services/keycloak.ts *)

Module KeycloakService.

Definition initialize : M bool :=
  keycloakUrl <- gets (fun w => NEXT_PUBLIC_KEYCLOAK_URL (env w)) ;;
  keycloakRealm <- gets (fun w => NEXT_PUBLIC_KEYCLOAK_REALM (env w)) ;;
  keycloakClientId <- gets (fun w => NEXT_PUBLIC_KEYCLOAK_CLIENT_ID (env w)) ;;
  if negb (truthy_str keycloakUrl) || negb (truthy_str keycloakRealm)
     || negb (truthy_str keycloakClientId)
  then ret false
  else
    origin <- gets (fun w => origin (env w)) ;;
    let cfg := {| url := to_string_undef keycloakUrl;
                  realm := to_string_undef keycloakRealm;
                  clientId := to_string_undef keycloakClientId;
                  redirectUri := origin ++ lit "/auth/callback" |} in
    let authority :=
      to_string_undef keycloakUrl ++ lit "/realms/"
        ++ to_string_undef keycloakRealm in
    let um := {| authority := authority;
                 client_id := to_string_undef keycloakClientId;
                 redirect_uri := redirectUri cfg;
                 post_logout_redirect_uri := origin;
                 response_type := lit "code";
                 scope := lit "openid profile email";
                 automaticSilentRenew := true;
                 silent_redirect_uri := origin ++ lit "/auth/silent-callback" |} in
    (fun w => (Ok true,
               with_service {| userManager := Some um; config := Some cfg |} w)).

Definition isConfigured : M bool :=
  gets (fun w => bool_decide (is_Some (userManager (service w)))).

(** What the user manager stores of its own while it handles the callback
    is left out here; [RealStorage.service_handleCallback] has it. *)
Definition handleCallback : M (option User) :=
  um <- gets (fun w => userManager (service w)) ;;
  match um with
  | None => throw (ErrorObj (lit "Keycloak not initialized"))
  | Some _ =>
      answer <- gets (fun w => signinRedirectCallback (oidc w)) ;;
      await answer
  end.

Definition getUser : M (option User) :=
  um <- gets (fun w => userManager (service w)) ;;
  match um with
  | None => ret None
  | Some _ =>
      (fun w =>
         (getUser_answer (oidc w) (getUserCalls w),
          with_getUserCalls (S (getUserCalls w)) w))
  end.

Definition isAuthenticated : M bool :=
  user <- getUser ;;
  ret match user with
      | None => false
      | Some u => negb (default false (expired u))
      end.

Definition getAccessToken : M (option jsstring) :=
  user <- getUser ;;
  ret (or_str (access_token <$> user) None).

Definition getUserId (user : User) : jsstring := sub (profile user).

Definition getUserName (user : User) : jsstring :=
  or_default
    (or_str (preferred_username (profile user)) (name (profile user)))
    (sub (profile user)).

Definition getUserEmail (user : User) : jsstring :=
  or_default (email (profile user)) [].

(** [login] and [logout] hand over to the user manager, which leaves the
    page; how its redirect ends is an input. *)
Definition login (signinRedirect : Outcome unit) : M unit :=
  um <- gets (fun w => userManager (service w)) ;;
  match um with
  | None => throw (ErrorObj (lit "Keycloak not initialized"))
  | Some _ => await signinRedirect
  end.

Definition logout (signoutRedirect : Outcome unit) : M unit :=
  um <- gets (fun w => userManager (service w)) ;;
  match um with
  | None => throw (ErrorObj (lit "Keycloak not initialized"))
  | Some _ => await signoutRedirect
  end.

End KeycloakService.

(** ** ui/app/auth/callback/page.tsx *)

Module AuthCallbackPage.

Definition handleCallback : M unit :=
  try_catch
    (initialized <- KeycloakService.initialize ;;
     if negb initialized
     then throw (ErrorObj (lit "Keycloak not configured"))
     else
       user <- KeycloakService.handleCallback ;;
       match user with
       | Some user =>
           let userId := KeycloakService.getUserId user in
           let userName := KeycloakService.getUserName user in
           let userEmail := KeycloakService.getUserEmail user in
           accessToken <- KeycloakService.getAccessToken ;;
           setItem SessionStore (lit "user_id") userId ;;;
           setItem SessionStore (lit "user_name") userName ;;;
           setItem SessionStore (lit "user_email") userEmail ;;;
           setItem SessionStore (lit "access_token") (or_default accessToken []) ;;;
           setItem SessionStore (lit "auth_type") (lit "keycloak") ;;;
           (* Also store in localStorage as backup *)
           setItem LocalStore (lit "user_id") userId ;;;
           setItem LocalStore (lit "user_name") userName ;;;
           setItem LocalStore (lit "user_email") userEmail ;;;
           setItem LocalStore (lit "auth_type") (lit "keycloak") ;;;
           emit (SetStatus StatusSuccess) ;;;
           emit (SetTimeout (RouterPush (lit "/")) 1500)
       | None => throw (ErrorObj (lit "No user returned from callback"))
       end)
    (fun err =>
       emit (SetError match err with
                      | ErrorObj message => message
                      | NonError => lit "Authentication failed"
                      end) ;;;
       emit (SetStatus StatusError) ;;;
       emit (SetTimeout (RouterPush (lit "/login")) 3000)).

(** The trace of a failed callback. *)
Definition callback_failure (m : jsstring) : list Event :=
  [SetError m; SetStatus StatusError;
   SetTimeout (RouterPush (lit "/login")) 3000].

End AuthCallbackPage.

(** ** The backend login endpoint, as the login page reads its answer *)

Module Backend.

(** [{ success: boolean, user_id?: string, name?: string, detail?: string }] *)
Record LoginData := {
  success : bool;
  user_id : option jsstring;
  name : option jsstring;
  detail : option jsstring
}.

(** The awaited [fetch] response with its parsed body. *)
Record HttpResponse := {
  ok : bool;
  data : LoginData
}.

End Backend.

(** ** ui/app/login/page.tsx *)

Module LoginPage.

Definition checkKeycloakAuth : M unit :=
  try_catch
    (isAuth <- KeycloakService.isAuthenticated ;;
     if isAuth then
       user <- KeycloakService.getUser ;;
       match user with
       | Some user =>
           let userId := KeycloakService.getUserId user in
           let userName := KeycloakService.getUserName user in
           accessToken <- KeycloakService.getAccessToken ;;
           setItem SessionStore (lit "user_id") userId ;;;
           setItem SessionStore (lit "user_name") userName ;;;
           setItem SessionStore (lit "access_token") (or_default accessToken []) ;;;
           setItem SessionStore (lit "auth_type") (lit "keycloak") ;;;
           emit (RouterPush (lit "/"))
       | None => ret tt
       end
     else ret tt)
    (fun _ => ret tt).

(** The effect run once when the page mounts. *)
Definition mountEffect : M unit :=
  window <- gets hasWindow ;;
  if window then
    keycloakConfigured <- KeycloakService.initialize ;;
    emit (SetUseKeycloak keycloakConfigured) ;;;
    if keycloakConfigured then checkKeycloakAuth else ret tt
  else ret tt.

(** [apiKey] is the text of the form field; [fetched] is what awaiting the
    request and its JSON body gives. *)
Definition handleApiKeyLogin (apiKey : jsstring)
    (fetched : Outcome Backend.HttpResponse) : M unit :=
  emit (SetError []) ;;;
  emit (SetSuccess false) ;;;
  emit (SetLoading true) ;;;
  try_finally
    (try_catch
       (response <- await fetched ;;
        let data := Backend.data response in
        if Backend.ok response && Backend.success data then
          let user_id := to_string_undef (Backend.user_id data) in
          let user_name :=
            to_string_undef (or_str (Backend.name data) (Backend.user_id data)) in
          setItem SessionStore (lit "api_key") apiKey ;;;
          setItem SessionStore (lit "user_id") user_id ;;;
          setItem SessionStore (lit "user_name") user_name ;;;
          setItem SessionStore (lit "auth_type") (lit "api_key") ;;;
          (* Also store in localStorage as backup *)
          setItem LocalStore (lit "api_key") apiKey ;;;
          setItem LocalStore (lit "user_id") user_id ;;;
          setItem LocalStore (lit "user_name") user_name ;;;
          emit (SetSuccess true) ;;;
          emit (SetError []) ;;;
          emit (SetTimeout (RouterPush (lit "/")) 500)
        else
          emit (SetError (or_default (Backend.detail data) (lit "Invalid API key"))))
       (fun _ =>
          emit (SetError
                  (lit "Failed to connect to server. Please check your connection."))))
    (emit (SetLoading false)).

Definition handleKeycloakLogin (signinRedirect : Outcome unit) : M unit :=
  emit (SetLoading true) ;;;
  emit (SetError []) ;;;
  try_catch
    (KeycloakService.login signinRedirect)
    (fun _ =>
       emit (SetError (lit "Failed to initiate Keycloak login")) ;;;
       emit (SetLoading false)).

(** The API-key form renders the button "Use SSO Login instead" under this
    condition, [process.env.NEXT_PUBLIC_KEYCLOAK_URL && ...]; the button
    calls [setUseKeycloak(true)]. *)
Definition offersSsoLogin (e : Env) : bool :=
  truthy_str (NEXT_PUBLIC_KEYCLOAK_URL e).

End LoginPage.

(** ** The silent-callback page *)

Module SilentCallbackPage.

Definition mountEffect : M unit :=
  KeycloakService.initialize ;;; ret tt.

End SilentCallbackPage.

(** ** The SSO handlers on a storage that can refuse a write *)

(** [Storage.setItem] throws when the area does not take the value (a
    QuotaExceededError, or a SecurityError when storage is blocked) and then
    leaves the area as it was.  The user manager built by [initialize] has
    [window.localStorage] as its [userStore] (keycloak.ts, line 41): while it
    handles the callback the OIDC client writes records of its own there.
    The modules above run the handlers on areas that take every write and
    leave the client's records out.  This module gives the two SSO handlers
    with both; what the storage refuses and what the client stores are
    inputs. *)
Module RealStorage.

Record Platform := {
  (* what [setItem(key, value)] throws on an area with these contents *)
  refusal : Store -> gmap jsstring jsstring -> jsstring -> jsstring -> option Thrown;
  (* the durable store once the OIDC client has handled the callback *)
  userStore : gmap jsstring jsstring -> gmap jsstring jsstring
}.

(** A change of the durable store that is not the handler's own. *)
Definition with_localStorage (ls : gmap jsstring jsstring) (w : World) : World :=
  {| hasWindow := hasWindow w; env := env w; oidc := oidc w;
     getUserCalls := getUserCalls w; service := service w;
     sessionStorage := sessionStorage w; localStorage := ls;
     events := events w |}.

(** [storage.setItem(key, value)] *)
Definition setItem (p : Platform) (st : Store) (key value : jsstring) : M unit :=
  fun w =>
    match refusal p st (area st w) key value with
    | Some error => (Throw error, w)
    | None => Browser.setItem st key value w
    end.

(** [keycloakService.handleCallback] *)
Definition service_handleCallback (p : Platform) : M (option User) :=
  um <- gets (fun w => userManager (service w)) ;;
  match um with
  | None => throw (ErrorObj (lit "Keycloak not initialized"))
  | Some _ =>
      (fun w =>
         (signinRedirectCallback (oidc w),
          with_localStorage (userStore p (localStorage w)) w))
  end.

(** [err instanceof Error ? err.message : 'Authentication failed'] *)
Definition shownError (err : Thrown) : jsstring :=
  match err with
  | ErrorObj message => message
  | NonError => lit "Authentication failed"
  end.

(** [handleCallback] of the callback page *)
Definition handleCallback (p : Platform) : M unit :=
  try_catch
    (initialized <- KeycloakService.initialize ;;
     if negb initialized
     then throw (ErrorObj (lit "Keycloak not configured"))
     else
       user <- service_handleCallback p ;;
       match user with
       | Some user =>
           let userId := KeycloakService.getUserId user in
           let userName := KeycloakService.getUserName user in
           let userEmail := KeycloakService.getUserEmail user in
           accessToken <- KeycloakService.getAccessToken ;;
           setItem p SessionStore (lit "user_id") userId ;;;
           setItem p SessionStore (lit "user_name") userName ;;;
           setItem p SessionStore (lit "user_email") userEmail ;;;
           setItem p SessionStore (lit "access_token") (or_default accessToken []) ;;;
           setItem p SessionStore (lit "auth_type") (lit "keycloak") ;;;
           (* Also store in localStorage as backup *)
           setItem p LocalStore (lit "user_id") userId ;;;
           setItem p LocalStore (lit "user_name") userName ;;;
           setItem p LocalStore (lit "user_email") userEmail ;;;
           setItem p LocalStore (lit "auth_type") (lit "keycloak") ;;;
           emit (SetStatus StatusSuccess) ;;;
           emit (SetTimeout (RouterPush (lit "/")) 1500)
       | None => throw (ErrorObj (lit "No user returned from callback"))
       end)
    (fun err =>
       emit (SetError (shownError err)) ;;;
       emit (SetStatus StatusError) ;;;
       emit (SetTimeout (RouterPush (lit "/login")) 3000)).

(** [checkKeycloakAuth] of the login page *)
Definition checkKeycloakAuth (p : Platform) : M unit :=
  try_catch
    (isAuth <- KeycloakService.isAuthenticated ;;
     if isAuth then
       user <- KeycloakService.getUser ;;
       match user with
       | Some user =>
           let userId := KeycloakService.getUserId user in
           let userName := KeycloakService.getUserName user in
           accessToken <- KeycloakService.getAccessToken ;;
           setItem p SessionStore (lit "user_id") userId ;;;
           setItem p SessionStore (lit "user_name") userName ;;;
           setItem p SessionStore (lit "access_token") (or_default accessToken []) ;;;
           setItem p SessionStore (lit "auth_type") (lit "keycloak") ;;;
           emit (RouterPush (lit "/"))
       | None => ret tt
       end
     else ret tt)
    (fun _ => ret tt).

(** A storage that takes every write, and a client whose records are left
    out: the setting of the modules above. *)
Definition accepting : Platform :=
  {| refusal := fun _ _ _ _ => None; userStore := fun ls => ls |}.










End RealStorage.

(** ** Reading the session on a protected page *)

Module Session.

(** [sessionStorage.getItem(key) || localStorage.getItem(key)]: the durable
    store is read only when the first operand is falsy. *)
Definition getItem_either (key : jsstring) : M (option jsstring) :=
  first <- getItem SessionStore key ;;
  if truthy_str first then ret first else getItem LocalStore key.

End Session.

(** ** ui/app/settings/page.tsx *)

Module SettingsPage.

Definition checkAuth : M unit :=
  window <- gets hasWindow ;;
  if negb window then ret tt
  else
    apiKey <- Session.getItem_either (lit "api_key") ;;
    userId <- Session.getItem_either (lit "user_id") ;;
    userName <- Session.getItem_either (lit "user_name") ;;
    if negb (truthy_str apiKey) then emit (RouterPush (lit "/login"))
    else
      emit (SetCurrentUser {| cu_userId := userId; cu_userName := userName;
                              cu_apiKey := or_default apiKey [] |}).

Definition handleLogout : M unit :=
  window <- gets hasWindow ;;
  (if window then clear SessionStore ;;; clear LocalStore else ret tt) ;;;
  emit (RouterPush (lit "/login")).

Definition mountEffect : M unit := checkAuth.

End SettingsPage.

(** ** The memories page *)

Module MemoriesPage.

Definition checkAuth : M unit :=
  window <- gets hasWindow ;;
  if negb window then ret tt
  else
    apiKey <- Session.getItem_either (lit "api_key") ;;
    userId <- Session.getItem_either (lit "user_id") ;;
    userName <- Session.getItem_either (lit "user_name") ;;
    if negb (truthy_str apiKey) then emit (RouterPush (lit "/login"))
    else
      emit (SetCurrentUser
              {| cu_userId := userId; cu_userName := userName;
                 cu_apiKey := firstn 10 (or_default apiKey []) ++ lit "..." |}).

Definition handleLogout : M unit :=
  window <- gets hasWindow ;;
  (if window then clear SessionStore ;;; clear LocalStore else ret tt) ;;;
  emit (RouterPush (lit "/login")).

(** The mount effect calls [checkAuth], then starts both requests. *)
Definition mountEffect : M unit :=
  checkAuth ;;;
  emit FetchMemories ;;;
  emit FetchUsers.

End MemoriesPage.

(** ** ui/app/memories/components/CreateMemoryDialog.tsx *)

Module CreateMemoryDialog.

(** [toast.success], [toast.warning], [toast.error] and plain [toast]. *)
Inductive Severity := Success | Warning | Error | Neutral.

Inductive UiEffect :=
| Toast (severity : Severity) (message : JsValue)
| SetOpen (open : bool)
| FetchMemories.

(** The effect on [notification], a [string | null] of the hook.  The [try]
    body can only throw before its first toast: in [JSON.parse], or reading
    [type] of null. *)
Definition notificationEffect (notification : option jsstring) : list UiEffect :=
  if truthy_str notification then
    let text := or_default notification [] in
    let attempt : option (list UiEffect) :=
      notificationObj ← Json.parse text;
      type ← get notificationObj (lit "type");
      let message := default JUndefined (get notificationObj (lit "message")) in
      Some (if strict_eq_str type (lit "success") then
              [Toast Success message; SetOpen false; FetchMemories]
            else if strict_eq_str type (lit "warning") then
              [Toast Warning message]
            else if strict_eq_str type (lit "error") then
              [Toast Error message]
            else if strict_eq_str type (lit "info") then
              [Toast Neutral message; SetOpen false; FetchMemories]
            else
              [Toast Success message; SetOpen false; FetchMemories])
    in
    match attempt with
    | Some effects => effects
    | None =>
        (* Fallback for plain string notifications *)
        [Toast Success (JStr text); SetOpen false; FetchMemories]
    end
  else [].

(** The effect on [error], a [string | null] of the hook. *)
Definition errorEffect (error : option jsstring) : list UiEffect :=
  if truthy_str error then [Toast Error (JStr (or_default error []))] else [].

(** What [handleCreateMemory] catches: an object with an optional string
    [message]; [response_data_detail] is the value of
    [error.response?.data?.detail]. *)
Record CaughtError := {
  message : option jsstring;
  response_data_detail : JsValue
}.

(** The inner [try] of the catch block: [Some effects] when it returns,
    [None] when it throws or falls through.  The awaited [fetchMemories()]
    resolves here; [innerTry] below is the block with a refresh that can
    reject. *)
Definition backendNotification (error : CaughtError) : option (list UiEffect) :=
  notification ← Json.parse (to_string_undef (message error));
  type ← get notification (lit "type");
  let message := default JUndefined (get notification (lit "message")) in
  if truthy (js_and type message) then
    Some (if strict_eq_str type (lit "success") then
            [Toast Success message; SetOpen false; FetchMemories]
          else if strict_eq_str type (lit "info") then
            [Toast Neutral message; SetOpen false; FetchMemories]
          else if strict_eq_str type (lit "warning") then
            [Toast Warning message]
          else
            [Toast Error message])
  else None.

(** [created] is how [await createMemory(text)] ended: [None] when it
    resolved, [Some error] when it threw. *)
Definition handleCreateMemory (created : option CaughtError) : list UiEffect :=
  match created with
  | None => []
  | Some error =>
      match backendNotification error with
      | Some effects => effects
      | None =>
          (* Fallback to regular error handling *)
          let errorMessage :=
            js_or (js_or (response_data_detail error)
                         (of_string_opt JUndefined (message error)))
                  (JStr (lit "Failed to create memory")) in
          [Toast Error errorMessage]
      end
  end.

(** [error.response?.data?.detail || error.message || "Failed to create memory"],
    the text of the regular error handling. *)
Definition errorMessage (error : CaughtError) : JsValue :=
  js_or (js_or (response_data_detail error)
               (of_string_opt JUndefined (message error)))
        (JStr (lit "Failed to create memory")).

(** The inner [try] when the awaited [fetchMemories()] of its 'success' and
    'info' branches can reject: the effects it has carried out, and whether
    it reached the [return] that follows the [switch].  [false] is a block
    left by a throw (from [JSON.parse], from reading [type] of null, or from
    the rejected refresh) or by a failed test of [type] and [message].
    [refreshed] is how the refresh ends when it is made. *)
Definition innerTry (error : CaughtError) (refreshed : Outcome unit)
  : list UiEffect * bool :=
  match Json.parse (to_string_undef (message error)) with
  | None => ([], false)
  | Some notification =>
      match get notification (lit "type") with
      | None => ([], false)
      | Some type =>
          let message := default JUndefined (get notification (lit "message")) in
          let awaited := match refreshed with Ok _ => true | Throw _ => false end in
          if truthy (js_and type message) then
            if strict_eq_str type (lit "success") then
              ([Toast Success message; SetOpen false; FetchMemories], awaited)
            else if strict_eq_str type (lit "info") then
              ([Toast Neutral message; SetOpen false; FetchMemories], awaited)
            else if strict_eq_str type (lit "warning") then
              ([Toast Warning message], true)
            else
              ([Toast Error message], true)
          else ([], false)
      end
  end.

(** [handleCreateMemory] with that refresh: a block that did not reach its
    [return] is followed by the regular error handling.  The empty [catch]
    swallows a rejected refresh like every other throw of the block. *)
Definition handleCreateMemoryAwaiting (created : option CaughtError)
    (refreshed : Outcome unit) : list UiEffect :=
  match created with
  | None => []
  | Some error =>
      let (effects, returned) := innerTry error refreshed in
      if returned then effects else effects ++ [Toast Error (errorMessage error)]
  end.

(** [JSON.parse(text).type] and [JSON.parse(text).message]; [None] when the
    parse or the property read throws. *)
Definition parsedType (text : jsstring) : option JsValue :=
  obj ← Json.parse text; get obj (lit "type").

Definition parsedMessage (text : jsstring) : option JsValue :=
  obj ← Json.parse text; get obj (lit "message").

(** Does the trace close the dialog?  Does it fetch the list again? *)
Definition closesDialog (effects : list UiEffect) : bool :=
  existsb (fun e => match e with SetOpen false => true | _ => false end) effects.

Definition refreshesList (effects : list UiEffect) : bool :=
  existsb (fun e => match e with FetchMemories => true | _ => false end) effects.

(** The severities of the toasts shown. *)
Definition toasts (effects : list UiEffect) : list Severity :=
  omap (fun e => match e with Toast s _ => Some s | _ => None end) effects.

(** The shapes a trace of either handler can have. *)
Inductive dialog_trace : list UiEffect -> Prop :=
| trace_nothing : dialog_trace []
| trace_stay (s : Severity) (m : JsValue) : dialog_trace [Toast s m]
| trace_close (s : Severity) (m : JsValue) :
    dialog_trace [Toast s m; SetOpen false; FetchMemories].

End CreateMemoryDialog.

(** ** The dialog variant that accepts strings and objects *)

(** A second version of the dialog's notification effect: [notification]
    may be a string or an object already, and a parsed value is acted on
    only when it, its [type] and its [message] are all truthy. *)
Module CreateMemoryDialogChecked.

Import CreateMemoryDialog.

(** [typeof notification === 'string' ? JSON.parse(notification) : notification];
    [None] is a thrown SyntaxError. *)
Definition notificationObj (notification : JsValue) : option JsValue :=
  match notification with
  | JStr text => Json.parse text
  | other => Some other
  end.

(** The branches of the [switch], the same as in the other dialog. *)
Definition dispatch (type message : JsValue) : list UiEffect :=
  if strict_eq_str type (lit "success") then
    [Toast Success message; SetOpen false; FetchMemories]
  else if strict_eq_str type (lit "warning") then [Toast Warning message]
  else if strict_eq_str type (lit "error") then [Toast Error message]
  else if strict_eq_str type (lit "info") then
    [Toast Neutral message; SetOpen false; FetchMemories]
  else [Toast Success message; SetOpen false; FetchMemories].

Definition notificationEffect (notification : JsValue) : list UiEffect :=
  if truthy notification then
    match notificationObj notification with
    | Some obj =>
        (* obj && obj.type && obj.message: no property is read of a falsy obj *)
        if truthy obj then
          let type := default JUndefined (get obj (lit "type")) in
          let message := default JUndefined (get obj (lit "message")) in
          if truthy (js_and type message) then dispatch type message else []
        else []
    | None =>
        (* Fallback for plain string notifications *)
        [Toast Success
           match notification with
           | JStr text => JStr text
           | _ => JStr (lit "Memory created successfully")
           end;
         SetOpen false; FetchMemories]
    end
  else [].

End CreateMemoryDialogChecked.

(** ** ui/services/uiConfig.ts and ui/hooks/useUIConfig.ts *)

Module UiConfig.

Record Env := {
  NEXT_PUBLIC_ENABLE_APPS : option jsstring;
  NEXT_PUBLIC_AUTH_MODE : option jsstring
}.

(** [{ features: { enable_apps } }] *)
Record UIConfig := { enable_apps : bool }.

(** [v !== 'literal'] for a [string | undefined]. *)
Definition differs (v : option jsstring) (s : jsstring) : bool :=
  negb (bool_decide (v = Some s)).

Definition fromEnvironment (e : Env) : UIConfig :=
  {| enable_apps := differs (NEXT_PUBLIC_ENABLE_APPS e) (lit "false") |}.

(** The version that asks the backend; [response] is how the request ended,
    with the body of the answer. *)
Definition getUIConfig_remote (e : Env) (response : Outcome UIConfig)
  : Outcome UIConfig :=
  match response with
  | Ok data => Ok data
  | Throw _ => Ok (fromEnvironment e)
  end.

(** The version that reads the environment only. *)
Definition getUIConfig_local (e : Env) : Outcome UIConfig :=
  Ok (fromEnvironment e).

Record HookState := { config : UIConfig; loading : bool }.

(** The initial state of [useUIConfig]. *)
Definition initialState (e : Env) : HookState :=
  {| config := {| enable_apps :=
                    differs (NEXT_PUBLIC_AUTH_MODE e) (lit "keycloak-only") |};
     loading := true |}.

Inductive HookEvent :=
| SetConfig (c : UIConfig)
| SetLoading (b : bool).

(** [fetchConfig] of the hook's effect; [answer] is what
    [uiConfigService.getUIConfig()] gives. *)
Definition fetchConfig (e : Env) (answer : Outcome UIConfig) : list HookEvent :=
  match answer with
  | Ok uiConfig => [SetConfig uiConfig]
  | Throw _ =>
      [SetConfig {| enable_apps :=
                      differs (NEXT_PUBLIC_AUTH_MODE e) (lit "keycloak-only") |}]
  end
  ++ [SetLoading false].

Definition apply (st : HookState) (ev : HookEvent) : HookState :=
  match ev with
  | SetConfig c => {| config := c; loading := loading st |}
  | SetLoading b => {| config := config st; loading := b |}
  end.

(** What the hook returns once its effect has run. *)
Definition useUIConfig (e : Env) (answer : Outcome UIConfig) : HookState :=
  fold_left apply (fetchConfig e answer) (initialState e).

End UiConfig.

(** ** The memories page: list, search, priorities *)

Module MemoriesView.

(** [s.startsWith(t)] and [s.includes(t)] on code units. *)
Fixpoint startsWith (s t : jsstring) {struct t} : bool :=
  match t with
  | [] => true
  | c :: t' =>
      match s with
      | d :: s' => (d =? c) && startsWith s' t'
      | [] => false
      end
  end.

Fixpoint includes (s t : jsstring) : bool :=
  startsWith s t
  || match s with
     | [] => false
     | _ :: s' => includes s' t
     end.

(** [toLowerCase] on a code unit below 128. *)
Definition ascii_lower (c : N) : N :=
  if (65 <=? c) && (c <=? 90) then c + 32 else c.

Definition ascii_upper (c : N) : N :=
  if (97 <=? c) && (c <=? 122) then c - 32 else c.

Definition is_ascii (s : jsstring) : bool := forallb (fun c => c <? 128) s.

(** What is used of [String.prototype.toLowerCase], whose Unicode tables
    are not part of the repository: on text below 128 it lowers A-Z. *)
Definition lowers_ascii (toLowerCase : jsstring -> jsstring) : Prop :=
  forall s, is_ascii s = true -> toLowerCase s = List.map ascii_lower s.

Definition isHighPriority (toLowerCase : jsstring -> jsstring)
    (priority : option jsstring) : bool :=
  if negb (truthy_str priority) then false
  else
    let p := toLowerCase (or_default priority []) in
    includes p (lit "high") || includes p (lit "urgent")
    || includes p (lit "critical") || includes p (lit "important").

Definition isMediumPriority (toLowerCase : jsstring -> jsstring)
    (priority : option jsstring) : bool :=
  if negb (truthy_str priority) then false
  else
    let p := toLowerCase (or_default priority []) in
    includes p (lit "medium") || includes p (lit "normal").

Inductive Icon := Flag.

Record PriorityStyle := {
  borderColor : jsstring;
  bgColor : jsstring;
  textColor : jsstring;
  badgeBg : jsstring;
  icon : Icon
}.

Definition getPriorityStyle (toLowerCase : jsstring -> jsstring)
    (priority : option jsstring) : option PriorityStyle :=
  if negb (truthy_str priority) then None
  else if isHighPriority toLowerCase priority then
    Some {| borderColor := lit "border-red-500"; bgColor := lit "bg-red-500/10";
            textColor := lit "text-red-400"; badgeBg := lit "bg-red-500/20";
            icon := Flag |}
  else if isMediumPriority toLowerCase priority then
    Some {| borderColor := lit "border-yellow-500";
            bgColor := lit "bg-yellow-500/10";
            textColor := lit "text-yellow-400";
            badgeBg := lit "bg-yellow-500/20"; icon := Flag |}
  else
    Some {| borderColor := []; bgColor := [];
            textColor := lit "text-gray-300"; badgeBg := lit "bg-gray-700";
            icon := Flag |}.

(** [memories.filter(memory => memory.content.toLowerCase()
    .includes(searchTerm.toLowerCase()))]; [content] reads the field of a
    memory, whose type is declared outside these files. *)
Definition filteredMemories {Memory : Type} (toLowerCase : jsstring -> jsstring)
    (content : Memory -> jsstring) (memories : list Memory)
    (searchTerm : jsstring) : list Memory :=
  List.filter
    (fun memory => includes (toLowerCase (content memory)) (toLowerCase searchTerm))
    memories.

(** WhiteSpace and LineTerminator code units, which [trim] removes. *)
Definition is_js_space (c : N) : bool :=
  existsb (N.eqb c)
    [9; 10; 11; 12; 13; 32; 160; 5760; 8192; 8193; 8194; 8195; 8196; 8197;
     8198; 8199; 8200; 8201; 8202; 8232; 8233; 8239; 8287; 12288; 65279].

Fixpoint trimStart (s : jsstring) : jsstring :=
  match s with
  | c :: rest => if is_js_space c then trimStart rest else s
  | [] => []
  end.

Definition trim (s : jsstring) : jsstring := rev (trimStart (rev (trimStart s))).

(** [PaginatedResponse<Memory>] as [fetchMemories] reads it; [pages] and
    [total] are whatever the parsed answer holds there. *)
Record PaginatedResponse (Memory : Type) := {
  items : option (list Memory);
  pages : JsValue;
  total : JsValue
}.
Arguments items {Memory} _.
Arguments pages {Memory} _.
Arguments total {Memory} _.

(** State setters, dialogs and API calls of the page, in order. *)
Inductive Effect {Memory : Type} :=
| SetLoading (b : bool)
| SetMemories (memories : list Memory)
| SetTotalPages (n : JsValue)
| SetTotalItems (n : JsValue)
| SetCreating (b : bool)
| SetNewMemoryContent (s : jsstring)
| SetShowCreateDialog (b : bool)
| GetMemories (page size : JsValue)
| CreateMemory (content : jsstring)
| DeleteMemory (id : jsstring)
| Confirm (text : jsstring)
| Alert (text : jsstring)
| FetchMemories.
Arguments Effect : clear implicits.

(** The number literals [1] and [0]. *)
Definition one : JsValue := JNum {| neg := false; mant := 1; exp10 := 0 |}.

Definition zero : JsValue := JNum {| neg := false; mant := 0; exp10 := 0 |}.

(** [response] is how [apiService.getMemories] ended; [currentPage] and
    [pageSize] are the numbers held by the page's state. *)
Definition fetchMemories {Memory : Type} (currentPage pageSize : JsValue)
    (response : Outcome (PaginatedResponse Memory)) : list (Effect Memory) :=
  [SetLoading true; GetMemories currentPage pageSize]
  ++ match response with
     | Ok r =>
         [SetMemories (default [] (items r));
          SetTotalPages (js_or (pages r) one);
          SetTotalItems (js_or (total r) zero)]
     | Throw _ => []
     end
  ++ [SetLoading false].

(** [created] is how [apiService.createMemory] ended. *)
Definition handleCreateMemory {Memory : Type} (newMemoryContent : jsstring)
    (created : Outcome unit) : list (Effect Memory) :=
  match trim newMemoryContent with
  | [] => []
  | _ :: _ =>
      [SetCreating true; CreateMemory newMemoryContent]
      ++ match created with
         | Ok _ =>
             [SetNewMemoryContent []; SetShowCreateDialog false; FetchMemories]
         | Throw _ => [Alert (lit "Failed to create memory")]
         end
      ++ [SetCreating false]
  end.

(** The create button is disabled under this condition. *)
Definition createDisabled (newMemoryContent : jsstring) (creating : bool) : bool :=
  match trim newMemoryContent with
  | [] => true
  | _ :: _ => creating
  end.

(** [confirmed] is the answer to the confirmation dialog, [deleted] how
    [apiService.deleteMemory] ended. *)
Definition handleDeleteMemory {Memory : Type} (id : jsstring)
    (confirmed : bool) (deleted : Outcome unit) : list (Effect Memory) :=
  Confirm (lit "Are you sure you want to delete this memory?")
  :: if negb confirmed then []
     else
       DeleteMemory id
       :: match deleted with
          | Ok _ => [FetchMemories]
          | Throw _ => [Alert (lit "Failed to delete memory")]
          end.

End MemoriesView.

(** JSON text for examples: every apostrophe stands for a double quote. *)
Definition json_text (s : string) : jsstring :=
  List.map (fun c => if c =? 39 then 34 else c) (lit s).


(** ** Example inputs *)

Module Examples.

Definition no_oidc : Oidc :=
  {| signinRedirectCallback := Throw NonError;
     getUser_answer := fun _ => Ok None |}.

(** An identity provider that knows one signed-in user. *)
Definition oidc_with (u : User) : Oidc :=
  {| signinRedirectCallback := Ok (Some u);
     getUser_answer := fun _ => Ok (Some u) |}.

Definition env_unconfigured : Env :=
  {| NEXT_PUBLIC_KEYCLOAK_URL := None;
     NEXT_PUBLIC_KEYCLOAK_REALM := None;
     NEXT_PUBLIC_KEYCLOAK_CLIENT_ID := None;
     origin := lit "https://memory.example" |}.

Definition env_keycloak : Env :=
  {| NEXT_PUBLIC_KEYCLOAK_URL := Some (lit "https://sso.example");
     NEXT_PUBLIC_KEYCLOAK_REALM := Some (lit "lab");
     NEXT_PUBLIC_KEYCLOAK_CLIENT_ID := Some (lit "openmemory");
     origin := lit "https://memory.example" |}.

Definition fresh_service : ServiceState :=
  {| userManager := None; config := None |}.

(** A browser tab with the given environment, provider and storage, in
    which nothing has happened yet. *)
Definition tab (e : Env) (o : Oidc) (ss ls : gmap jsstring jsstring) : World :=
  {| hasWindow := true; env := e; oidc := o; getUserCalls := 0;
     service := fresh_service; sessionStorage := ss; localStorage := ls;
     events := [] |}.

Definition alice : User :=
  {| profile := {| sub := lit "abc"; preferred_username := None;
                   name := Some (lit "Alice");
                   email := Some (lit "alice@lab.example") |};
     access_token := lit "tok-1";
     expired := Some false |}.


(** A user whose [preferred_username] claim is present and empty. *)
Definition empty_username : User :=
  {| profile := {| sub := lit "abc"; preferred_username := Some [];
                   name := Some (lit "Alice"); email := None |};
     access_token := lit "tok-1";
     expired := Some false |}.

(** A browser whose durable store is full: it refuses every write of the
    page, after the OIDC client has stored its own record. *)
Definition durable_store_full : RealStorage.Platform :=
  {| RealStorage.refusal :=
       fun st _ _ _ =>
         match st with
         | LocalStore => Some (ErrorObj (lit "QuotaExceededError"))
         | SessionStore => None
         end;
     RealStorage.userStore := fun ls => <[lit "oidc.user" := lit "alice"]> ls |}.

(** A session-scoped store that has no room for the access token. *)
Definition no_room_for_token : RealStorage.Platform :=
  {| RealStorage.refusal :=
       fun st _ key _ =>
         match st with
         | SessionStore =>
             if bool_decide (key = lit "access_token") then Some NonError else None
         | LocalStore => None
         end;
     RealStorage.userStore := fun ls => ls |}.

Definition login_ok : Backend.HttpResponse :=
  {| Backend.ok := true;
     Backend.data := {| Backend.success := true;
                        Backend.user_id := Some (lit "u1");
                        Backend.name := Some (lit "Alice");
                        Backend.detail := None |} |}.

End Examples.

Import Examples.

(** * Properties *)

(** ** JSON.parse never runs out of fuel *)

Section ParserFuel.

Import Json.

Lemma skip_ws_le (s : jsstring) : (length (skip_ws s) <= length s)%nat.
Proof.
  induction s as [|c s IH]; simpl; [lia|].
  destruct (is_ws c); simpl; lia.
Qed.

Lemma parse_chars_shrinks (s acc r rest : jsstring) :
  parse_chars s acc = POk r rest -> (length rest < length s)%nat.
Proof.
  revert acc.
  induction s as [s IH] using (well_founded_induction
                                 (well_founded_ltof _ (@length N))).
  unfold ltof in IH. intros acc H.
  destruct s as [|c s1]; simpl in H; [discriminate|].
  destruct (c =? c_quote).
  { inversion H; subst. simpl. lia. }
  destruct (c =? c_backslash).
  - destruct s1 as [|e s2]; [discriminate|].
    destruct (e =? 117).
    + destruct s2 as [|h1 [|h2 [|h3 [|h4 s3]]]]; try discriminate.
      destruct (hex4 h1 h2 h3 h4); [|discriminate].
      apply IH in H; simpl in *; lia.
    + destruct (simple_escape e); [|discriminate].
      apply IH in H; simpl in *; lia.
  - destruct (c <? 32); [discriminate|].
    apply IH in H; simpl in *; lia.
Qed.

Lemma parse_chars_no_fuel (s acc : jsstring) : parse_chars s acc <> PFuel.
Proof.
  revert acc.
  induction s as [s IH] using (well_founded_induction
                                 (well_founded_ltof _ (@length N))).
  unfold ltof in IH. intros acc.
  destruct s as [|c s1]; simpl; [discriminate|].
  destruct (c =? c_quote); [discriminate|].
  destruct (c =? c_backslash).
  - destruct s1 as [|e s2]; [discriminate|].
    destruct (e =? 117).
    + destruct s2 as [|h1 [|h2 [|h3 [|h4 s3]]]]; try discriminate.
      destruct (hex4 h1 h2 h3 h4); [|discriminate].
      apply IH; simpl; lia.
    + destruct (simple_escape e); [|discriminate].
      apply IH; simpl; lia.
  - destruct (c <? 32); [discriminate|].
    apply IH; simpl; lia.
Qed.

Lemma parse_string_shrinks (s r rest : jsstring) :
  parse_string s = POk r rest -> (length rest < length s)%nat.
Proof.
  destruct s as [|c s]; simpl; [discriminate|].
  destruct (c =? c_quote); [|discriminate].
  intros H%parse_chars_shrinks. lia.
Qed.

Lemma parse_string_no_fuel (s : jsstring) : parse_string s <> PFuel.
Proof.
  destruct s as [|c s]; simpl; [discriminate|].
  destruct (c =? c_quote); [apply parse_chars_no_fuel|discriminate].
Qed.

Lemma parse_digits_le (s : jsstring) (acc : N) (k : nat) :
  (length (parse_digits s acc k).2 <= length s)%nat.
Proof.
  revert acc k. induction s as [|c s IH]; intros acc k; simpl; [lia|].
  destruct (is_digit c); simpl; [|lia].
  specialize (IH (acc * 10 + (c - c_0)) (S k)). lia.
Qed.

Lemma parse_number_shrinks (s rest : jsstring) (n : JsNumber) :
  parse_number s = POk n rest -> (length rest < length s)%nat.
Proof.
  unfold parse_number.
  set (p := match s with
            | c :: r => if c =? c_minus then (true, r) else (false, s)
            | [] => (false, s)
            end).
  assert (Hp : (length p.2 <= length s)%nat).
  { subst p. destruct s as [|c r]; simpl; [lia|].
    destruct (c =? c_minus); simpl; lia. }
  destruct p as [sign s1]. simpl in Hp.
  destruct (parse_int s1) as [[m s2]|] eqn:Hint; [|discriminate].
  assert (H2 : (length s2 < length s1)%nat).
  { unfold parse_int in Hint. destruct s1 as [|c r]; [discriminate|].
    destruct (c =? c_0).
    - inversion Hint; subst. simpl. lia.
    - destruct (is_digit c); [|discriminate].
      pose proof (parse_digits_le r (c - c_0) 1) as Hd.
      destruct (parse_digits r (c - c_0) 1) as [[m' k'] r'].
      inversion Hint; subst. simpl in *. lia. }
  destruct (parse_frac m s2) as [[[m' k] s3]|] eqn:Hfrac; [|discriminate].
  assert (H3 : (length s3 <= length s2)%nat).
  { unfold parse_frac in Hfrac. destruct s2 as [|c r].
    - inversion Hfrac; subst. simpl. lia.
    - destruct (c =? c_dot).
      + pose proof (parse_digits_le r m 0) as Hd.
        destruct (parse_digits r m 0) as [[m1 k1] r1].
        destruct k1; [discriminate|]. inversion Hfrac; subst. simpl in *. lia.
      + inversion Hfrac; subst. lia. }
  destruct (parse_exp s3) as [[x s4]|] eqn:Hexp; [|discriminate].
  assert (H4 : (length s4 <= length s3)%nat).
  { unfold parse_exp in Hexp. destruct s3 as [|c r].
    - inversion Hexp; subst. simpl. lia.
    - destruct ((c =? c_e) || (c =? c_E)).
      + set (q := match r with
                  | d :: r0 =>
                      if d =? c_minus then (true, r0)
                      else if d =? c_plus then (false, r0) else (false, r)
                  | [] => (false, r)
                  end) in Hexp.
        assert (Hq : (length q.2 <= length r)%nat).
        { subst q. destruct r as [|d r0]; simpl; [lia|].
          destruct (d =? c_minus); simpl; [lia|].
          destruct (d =? c_plus); simpl; lia. }
        destruct q as [sg r1]. simpl in Hq.
        pose proof (parse_digits_le r1 0 0) as Hd.
        destruct (parse_digits r1 0 0) as [[x1 k1] r2].
        destruct k1; [discriminate|]. inversion Hexp; subst. simpl in *. lia.
      + inversion Hexp; subst. lia. }
  intros H. inversion H; subst. lia.
Qed.

Lemma parse_number_no_fuel (s : jsstring) : parse_number s <> PFuel.
Proof.
  unfold parse_number.
  destruct (match s with
            | c :: r => if c =? c_minus then (true, r) else (false, s)
            | [] => (false, s)
            end) as [sign s1].
  destruct (parse_int s1) as [[m s2]|]; [|discriminate].
  destruct (parse_frac m s2) as [[[m' k] s3]|]; [|discriminate].
  destruct (parse_exp s3) as [[x s4]|]; discriminate.
Qed.

Lemma strip_prefix_le (word s rest : jsstring) :
  strip_prefix word s = Some rest ->
  (length rest + length word = length s)%nat.
Proof.
  revert s. induction word as [|w word IH]; intros s; simpl.
  - intros [= ->]. lia.
  - destruct s as [|c s]; [discriminate|].
    destruct (c =? w); [|discriminate].
    intros H%IH. simpl. lia.
Qed.

Lemma parse_literal_shrinks (s rest : jsstring) (v : JsValue) :
  parse_literal s = POk v rest -> (length rest < length s)%nat.
Proof.
  unfold parse_literal.
  destruct (strip_prefix (lit "true") s) eqn:H1.
  { apply strip_prefix_le in H1. intros [= <- <-]. simpl in H1. lia. }
  destruct (strip_prefix (lit "false") s) eqn:H2.
  { apply strip_prefix_le in H2. intros [= <- <-]. simpl in H2. lia. }
  destruct (strip_prefix (lit "null") s) eqn:H3; [|discriminate].
  apply strip_prefix_le in H3. intros [= <- <-]. simpl in H3. lia.
Qed.

Lemma parse_literal_no_fuel (s : jsstring) : parse_literal s <> PFuel.
Proof.
  unfold parse_literal.
  destruct (strip_prefix (lit "true") s); [discriminate|].
  destruct (strip_prefix (lit "false") s); [discriminate|].
  destruct (strip_prefix (lit "null") s); discriminate.
Qed.

(** Facts about the lengths of what is left, read off the hypotheses. *)
Ltac rest_lengths :=
  repeat match goal with
    | H : skip_ws ?s = ?r |- _ =>
        lazymatch goal with
        | _ : (length r <= length s)%nat |- _ => fail
        | _ => let L := fresh "L" in
               assert (L : (length r <= length s)%nat)
                 by (rewrite <- H; apply skip_ws_le)
        end
    | H : parse_chars ?s ?a = POk _ ?r |- _ =>
        lazymatch goal with
        | _ : (length r < length s)%nat |- _ => fail
        | _ => let L := fresh "L" in pose proof (parse_chars_shrinks _ _ _ _ H) as L
        end
    | H : parse_string ?s = POk _ ?r |- _ =>
        lazymatch goal with
        | _ : (length r < length s)%nat |- _ => fail
        | _ => let L := fresh "L" in pose proof (parse_string_shrinks _ _ _ H) as L
        end
    | H : parse_number ?s = POk _ ?r |- _ =>
        lazymatch goal with
        | _ : (length r < length s)%nat |- _ => fail
        | _ => let L := fresh "L" in pose proof (parse_number_shrinks _ _ _ H) as L
        end
    | H : parse_literal ?s = POk _ ?r |- _ =>
        lazymatch goal with
        | _ : (length r < length s)%nat |- _ => fail
        | _ => let L := fresh "L" in pose proof (parse_literal_shrinks _ _ _ H) as L
        end
    end.

Lemma value_step (f : nat) :
  elements_ok f -> members_ok f -> value_ok (S f).
Proof.
  intros He Hm s. simpl.
  destruct (skip_ws s) as [|c rest] eqn:Hs; [split; [discriminate|intros _; discriminate]|].
  rest_lengths. simpl in L.
  destruct (c =? c_lbrace).
  { destruct (skip_ws rest) as [|d rest'] eqn:Hr;
      [split; [discriminate|intros _; discriminate]|].
    rest_lengths. simpl in *.
    destruct (d =? c_rbrace).
    - split; [intros v r [= <- <-]; lia|intros _; discriminate].
    - destruct (Hm (d :: rest') []) as [H1 H2]. split.
      + intros v r Hrec%H1. simpl in Hrec. lia.
      + intros Hf. apply H2. simpl. lia. }
  destruct (c =? c_lbracket).
  { destruct (skip_ws rest) as [|d rest'] eqn:Hr;
      [split; [discriminate|intros _; discriminate]|].
    rest_lengths. simpl in *.
    destruct (d =? c_rbracket).
    - split; [intros v r [= <- <-]; lia|intros _; discriminate].
    - destruct (He (d :: rest') []) as [H1 H2]. split.
      + intros v r Hrec%H1. simpl in Hrec. lia.
      + intros Hf. apply H2. simpl. lia. }
  destruct (c =? c_quote).
  { destruct (parse_chars rest []) as [str r'| |] eqn:Hc.
    - rest_lengths. split; [intros v r [= <- <-]; lia|intros _; discriminate].
    - split; [discriminate|intros _; discriminate].
    - exfalso. exact (parse_chars_no_fuel _ _ Hc). }
  destruct ((c =? c_minus) || is_digit c).
  { destruct (parse_number (c :: rest)) as [n r'| |] eqn:Hn.
    - rest_lengths. simpl in *.
      split; [intros v r [= <- <-]; lia|intros _; discriminate].
    - split; [discriminate|intros _; discriminate].
    - exfalso. exact (parse_number_no_fuel _ Hn). }
  split.
  - intros v r Hlit. rest_lengths. simpl in *. lia.
  - intros _. apply parse_literal_no_fuel.
Qed.

Lemma elements_step (f : nat) :
  value_ok f -> elements_ok f -> elements_ok (S f).
Proof.
  intros Hv He s acc. simpl.
  destruct (Hv s) as [V1 V2].
  destruct (parse_value f s) as [v rest| |] eqn:Hp.
  - specialize (V1 _ _ eq_refl).
    destruct (skip_ws rest) as [|c rest'] eqn:Hr;
      [split; [discriminate|intros _; discriminate]|].
    rest_lengths. simpl in *.
    destruct (c =? c_comma).
    + destruct (He rest' (v :: acc)) as [H1 H2]. split.
      * intros v' r Hrec%H1. lia.
      * intros Hf. apply H2. lia.
    + destruct (c =? c_rbracket);
        split; try discriminate; try (intros _; discriminate).
      intros v' r [= <- <-]. lia.
  - split; [discriminate|intros _; discriminate].
  - split; [discriminate|]. intros Hf _. apply V2; [lia|reflexivity].
Qed.

Lemma members_step (f : nat) :
  value_ok f -> members_ok f -> members_ok (S f).
Proof.
  intros Hv Hm s acc. simpl.
  destruct (parse_string (skip_ws s)) as [k rest| |] eqn:Hk.
  - pose proof (skip_ws_le s) as Ls. rest_lengths.
    destruct (skip_ws rest) as [|c rest1] eqn:Hr;
      [split; [discriminate|intros _; discriminate]|].
    rest_lengths. simpl in *.
    destruct (c =? c_colon);
      [|split; [discriminate|intros _; discriminate]].
    destruct (Hv rest1) as [V1 V2].
    destruct (parse_value f rest1) as [v rest2| |] eqn:Hp.
    + specialize (V1 _ _ eq_refl).
      destruct (skip_ws rest2) as [|d rest3] eqn:Hr2;
        [split; [discriminate|intros _; discriminate]|].
      rest_lengths. simpl in *.
      destruct (d =? c_comma).
      * destruct (Hm rest3 ((k, v) :: acc)) as [H1 H2]. split.
        -- intros v' r Hrec%H1. lia.
        -- intros Hf. apply H2. lia.
      * destruct (d =? c_rbrace);
          split; try discriminate; try (intros _; discriminate).
        intros v' r [= <- <-]. lia.
    + split; [discriminate|intros _; discriminate].
    + split; [discriminate|]. intros Hf _. apply V2; [lia|reflexivity].
  - split; [discriminate|intros _; discriminate].
  - exfalso. exact (parse_string_no_fuel _ Hk).
Qed.

Lemma parsers_ok (f : nat) : value_ok f /\ elements_ok f /\ members_ok f.
Proof.
  induction f as [|f (Hv & He & Hm)].
  - repeat split; simpl; try discriminate; lia.
  - auto using value_step, elements_step, members_step.
Qed.

(** The fuel [JSON.parse] starts with is never used up: a [None] of
    [Json.parse] is a syntax error of the text. *)
Lemma parse_value_fuel (s : jsstring) : parse_value (fuel_for s) s <> PFuel.
Proof.
  destruct (parsers_ok (fuel_for s)) as [Hv _].
  apply Hv. unfold fuel_for. lia.
Qed.

End ParserFuel.

(** ** Running handlers *)

Arguments lit : simpl never.

(** Run a handler as far as the text of the program decides: unfold the
    handlers and the monad and project the fields of the worlds built on the
    way.  The answers of the outside world stay as they are. *)
Ltac run_handlers :=
  lazy beta iota zeta delta
    [run result
     AuthCallbackPage.handleCallback
     LoginPage.checkKeycloakAuth LoginPage.mountEffect LoginPage.handleApiKeyLogin
     SettingsPage.checkAuth SettingsPage.handleLogout SettingsPage.mountEffect
     MemoriesPage.checkAuth MemoriesPage.handleLogout MemoriesPage.mountEffect
     Session.getItem_either
     KeycloakService.initialize KeycloakService.handleCallback
     KeycloakService.getUser KeycloakService.isAuthenticated
     KeycloakService.getAccessToken KeycloakService.isConfigured
     bind ret gets emit await throw try_catch try_finally
     getItem setItem clear area
     log with_stores with_service with_getUserCalls
     hasWindow env oidc getUserCalls service sessionStorage localStorage events
     userManager config fst snd negb orb andb].

(** Bring a trace built by successive appends into the form [old ++ new]. *)
Ltac flatten_trace := rewrite <- ?app_assoc; cbn [app].

(** Two different storage keys. *)
Ltac key_neq := let H := fresh in intros H; vm_compute in H; discriminate H.

(** Name the fields of a world, so that projections compute. *)
Ltac open_world w :=
  destruct w as [hw e o n svc ss ls evs];
  cbn [hasWindow env oidc getUserCalls service sessionStorage localStorage events]
    in *.

(** Split on which of the three configuration values are usable. *)
Ltac case_config e :=
  destruct (truthy_str (NEXT_PUBLIC_KEYCLOAK_URL e));
  destruct (truthy_str (NEXT_PUBLIC_KEYCLOAK_REALM e));
  destruct (truthy_str (NEXT_PUBLIC_KEYCLOAK_CLIENT_ID e)).

(** [initialize] answers true exactly on a complete configuration, and false
    leaves the service as it was. *)
Lemma initialize_result (w : World) :
  result KeycloakService.initialize w
  = Ok (truthy_str (NEXT_PUBLIC_KEYCLOAK_URL (env w))
        && truthy_str (NEXT_PUBLIC_KEYCLOAK_REALM (env w))
        && truthy_str (NEXT_PUBLIC_KEYCLOAK_CLIENT_ID (env w))).
Proof.
  open_world w. run_handlers. case_config e; reflexivity.
Qed.

Lemma initialize_false_run (w : World) :
  result KeycloakService.initialize w = Ok false ->
  run KeycloakService.initialize w = w.
Proof.
  open_world w. run_handlers. case_config e; first [reflexivity | discriminate].
Qed.

(** After a true answer the service holds a user manager; nothing else of
    the world has changed. *)
Lemma initialize_true_run (w : World) :
  result KeycloakService.initialize w = Ok true ->
  exists um cfg,
    KeycloakService.initialize w
    = (Ok true, with_service {| userManager := Some um; config := Some cfg |} w).
Proof.
  open_world w.
  unfold result, KeycloakService.initialize, bind, gets, ret, with_service.
  cbn [fst env hasWindow oidc getUserCalls sessionStorage localStorage events].
  case_config e; cbn [negb orb fst]; try discriminate.
  intros _. eauto.
Qed.

(** The world after a callback in which the provider returns [user] and the
    token accessor then finds [again]. *)
Lemma handleCallback_success (w : World) (user : User) (again : option User) :
  result KeycloakService.initialize w = Ok true ->
  signinRedirectCallback (oidc w) = Ok (Some user) ->
  getUser_answer (oidc w) (getUserCalls w) = Ok again ->
  let userId := KeycloakService.getUserId user in
  let userName := KeycloakService.getUserName user in
  let userEmail := KeycloakService.getUserEmail user in
  let accessToken := or_default (or_str (access_token <$> again) None) [] in
  let w' := run AuthCallbackPage.handleCallback w in
  sessionStorage w'
  = <[lit "auth_type" := lit "keycloak"]>
      (<[lit "access_token" := accessToken]>
         (<[lit "user_email" := userEmail]>
            (<[lit "user_name" := userName]>
               (<[lit "user_id" := userId]> (sessionStorage w)))))
  /\ localStorage w'
     = <[lit "auth_type" := lit "keycloak"]>
         (<[lit "user_email" := userEmail]>
            (<[lit "user_name" := userName]>
               (<[lit "user_id" := userId]> (localStorage w))))
  /\ events w'
     = events w
       ++ [SetItem SessionStore (lit "user_id") userId;
           SetItem SessionStore (lit "user_name") userName;
           SetItem SessionStore (lit "user_email") userEmail;
           SetItem SessionStore (lit "access_token") accessToken;
           SetItem SessionStore (lit "auth_type") (lit "keycloak");
           SetItem LocalStore (lit "user_id") userId;
           SetItem LocalStore (lit "user_name") userName;
           SetItem LocalStore (lit "user_email") userEmail;
           SetItem LocalStore (lit "auth_type") (lit "keycloak");
           SetStatus StatusSuccess;
           SetTimeout (RouterPush (lit "/")) 1500].
Proof.
  intros Hinit Hcb Hget. open_world w.
  revert Hinit. run_handlers.
  case_config e; intros Hinit; try discriminate Hinit.
  rewrite Hcb. run_handlers. rewrite Hget. run_handlers.
  flatten_trace. auto.
Qed.

Lemma truthy_str_nonempty (o : option jsstring) :
  truthy_str o = true <-> nonempty o.
Proof.
  unfold nonempty. split.
  - destruct o as [[|c r]|]; simpl; try discriminate. eauto.
  - intros (c & r & ->). reflexivity.
Qed.

(** The short-circuit read is the [||] of the two stored values. *)
Lemma getItem_either_run (key : jsstring) (w : World) :
  Session.getItem_either key w
  = (Ok (or_str (sessionStorage w !! key) (localStorage w !! key)), w).
Proof.
  unfold Session.getItem_either, bind, getItem, ret, or_str. simpl.
  destruct (truthy_str (sessionStorage w !! key)); reflexivity.
Qed.

Lemma settings_checkAuth_pair (w : World) :
  hasWindow w = true ->
  let apiKey := or_str (sessionStorage w !! lit "api_key")
                       (localStorage w !! lit "api_key") in
  let userId := or_str (sessionStorage w !! lit "user_id")
                       (localStorage w !! lit "user_id") in
  let userName := or_str (sessionStorage w !! lit "user_name")
                         (localStorage w !! lit "user_name") in
  SettingsPage.checkAuth w
  = (Ok tt,
     if truthy_str apiKey
     then log (SetCurrentUser {| cu_userId := userId; cu_userName := userName;
                                 cu_apiKey := or_default apiKey [] |}) w
     else log (RouterPush (lit "/login")) w).
Proof.
  intros Hw. unfold SettingsPage.checkAuth, bind at 1.
  unfold gets at 1. rewrite Hw. cbn [negb].
  unfold bind. rewrite !getItem_either_run.
  destruct (truthy_str _); reflexivity.
Qed.

Lemma settings_checkAuth_run (w : World) :
  hasWindow w = true ->
  let apiKey := or_str (sessionStorage w !! lit "api_key")
                       (localStorage w !! lit "api_key") in
  let userId := or_str (sessionStorage w !! lit "user_id")
                       (localStorage w !! lit "user_id") in
  let userName := or_str (sessionStorage w !! lit "user_name")
                         (localStorage w !! lit "user_name") in
  run SettingsPage.checkAuth w
  = if truthy_str apiKey
    then log (SetCurrentUser {| cu_userId := userId; cu_userName := userName;
                                cu_apiKey := or_default apiKey [] |}) w
    else log (RouterPush (lit "/login")) w.
Proof.
  intros Hw. unfold run. rewrite (settings_checkAuth_pair w Hw). reflexivity.
Qed.

Lemma memories_checkAuth_pair (w : World) :
  hasWindow w = true ->
  let apiKey := or_str (sessionStorage w !! lit "api_key")
                       (localStorage w !! lit "api_key") in
  let userId := or_str (sessionStorage w !! lit "user_id")
                       (localStorage w !! lit "user_id") in
  let userName := or_str (sessionStorage w !! lit "user_name")
                         (localStorage w !! lit "user_name") in
  MemoriesPage.checkAuth w
  = (Ok tt,
     if truthy_str apiKey
     then log (SetCurrentUser
                 {| cu_userId := userId; cu_userName := userName;
                    cu_apiKey := firstn 10 (or_default apiKey []) ++ lit "..." |}) w
     else log (RouterPush (lit "/login")) w).
Proof.
  intros Hw. unfold MemoriesPage.checkAuth, bind at 1.
  unfold gets at 1. rewrite Hw. cbn [negb].
  unfold bind. rewrite !getItem_either_run.
  destruct (truthy_str _); reflexivity.
Qed.

Lemma memories_checkAuth_run (w : World) :
  hasWindow w = true ->
  let apiKey := or_str (sessionStorage w !! lit "api_key")
                       (localStorage w !! lit "api_key") in
  let userId := or_str (sessionStorage w !! lit "user_id")
                       (localStorage w !! lit "user_id") in
  let userName := or_str (sessionStorage w !! lit "user_name")
                         (localStorage w !! lit "user_name") in
  run MemoriesPage.checkAuth w
  = if truthy_str apiKey
    then log (SetCurrentUser
                {| cu_userId := userId; cu_userName := userName;
                   cu_apiKey := firstn 10 (or_default apiKey []) ++ lit "..." |}) w
    else log (RouterPush (lit "/login")) w.
Proof.
  intros Hw. unfold run. rewrite (memories_checkAuth_pair w Hw). reflexivity.
Qed.

(** On the memories page the mount effect goes on after [checkAuth] has
    redirected: both requests are still started. *)
Lemma memories_mount_after_redirect (w : World) :
  hasWindow w = true ->
  sessionStorage w !! lit "api_key" = None ->
  localStorage w !! lit "api_key" = None ->
  events (run MemoriesPage.mountEffect w)
  = events w ++ [RouterPush (lit "/login"); FetchMemories; FetchUsers].
Proof.
  intros Hw Hs Hl.
  unfold run, MemoriesPage.mountEffect, bind at 1.
  rewrite (memories_checkAuth_pair w Hw). cbv zeta. rewrite Hs, Hl.
  open_world w. run_handlers. cbn [or_str truthy_str]. run_handlers.
  flatten_trace. reflexivity.
Qed.

Lemma handleLogout_run (w : World) :
  hasWindow w = true ->
  run SettingsPage.handleLogout w
  = log (RouterPush (lit "/login"))
      (with_stores ∅ ∅ (Clear LocalStore)
         (with_stores ∅ (localStorage w) (Clear SessionStore) w))
  /\ run MemoriesPage.handleLogout w = run SettingsPage.handleLogout w.
Proof.
  intros Hw. split; [|reflexivity].
  open_world w. subst hw. run_handlers. reflexivity.
Qed.

(** The world after [checkKeycloakAuth] finds a signed-in user: [u1] is
    what [isAuthenticated] sees, [u2] what the handler reads next, [again]
    what the token accessor finds. *)
Lemma checkKeycloakAuth_signed_in (w : World) (um : UserManagerSettings)
    (u1 u2 : User) (again : option User) :
  userManager (service w) = Some um ->
  getUser_answer (oidc w) (getUserCalls w) = Ok (Some u1) ->
  default false (expired u1) = false ->
  getUser_answer (oidc w) (S (getUserCalls w)) = Ok (Some u2) ->
  getUser_answer (oidc w) (S (S (getUserCalls w))) = Ok again ->
  let accessToken := or_default (or_str (access_token <$> again) None) [] in
  let w' := run LoginPage.checkKeycloakAuth w in
  sessionStorage w'
  = <[lit "auth_type" := lit "keycloak"]>
      (<[lit "access_token" := accessToken]>
         (<[lit "user_name" := KeycloakService.getUserName u2]>
            (<[lit "user_id" := KeycloakService.getUserId u2]> (sessionStorage w))))
  /\ localStorage w' = localStorage w
  /\ events w'
     = events w
       ++ [SetItem SessionStore (lit "user_id") (KeycloakService.getUserId u2);
           SetItem SessionStore (lit "user_name") (KeycloakService.getUserName u2);
           SetItem SessionStore (lit "access_token") accessToken;
           SetItem SessionStore (lit "auth_type") (lit "keycloak");
           RouterPush (lit "/")].
Proof.
  intros Hum H1 Hexp H2 H3. open_world w.
  destruct svc as [um0 cfg0]. cbn [userManager] in Hum. subst um0.
  run_handlers. rewrite H1. run_handlers.
  rewrite Hexp. run_handlers. rewrite H2. run_handlers. rewrite H3.
  run_handlers. flatten_trace. auto.
Qed.

(** Whatever the provider answers, [checkKeycloakAuth] leaves the durable
    store alone and writes no [user_email]. *)
Lemma checkKeycloakAuth_frame (w : World) :
  let w' := run LoginPage.checkKeycloakAuth w in
  localStorage w' = localStorage w
  /\ sessionStorage w' !! lit "user_email" = sessionStorage w !! lit "user_email".
Proof.
  open_world w. destruct svc as [[um|] cfg]; run_handlers; [|auto].
  destruct (getUser_answer o n) as [[u1|]|e1]; run_handlers; auto.
  destruct (default false (expired u1)); run_handlers; [auto|].
  destruct (getUser_answer o (S n)) as [[u2|]|e2]; run_handlers; auto.
  destruct (getUser_answer o (S (S n))) as [again|e3]; run_handlers; auto.
  split; [reflexivity|].
  rewrite !lookup_insert_ne by key_neq. reflexivity.
Qed.


(** ** The create-memory dialog *)

Section Notifications.

Import CreateMemoryDialog.

(** Decide the comparisons of a [switch] on a known string. *)
Ltac eval_switch :=
  repeat match goal with
    | |- context [strict_eq_str (JStr ?a) ?b] =>
        let v := eval vm_compute in (strict_eq_str (JStr a) b) in
        change (strict_eq_str (JStr a) b) with v
    end;
  cbv iota.

Lemma strict_eq_str_true (v : JsValue) (s : jsstring) :
  strict_eq_str v s = true <-> v = JStr s.
Proof.
  destruct v; simpl; try (split; [discriminate|intros [=]]).
  rewrite bool_decide_eq_true. split; [intros ->; reflexivity|intros [=]; auto].
Qed.

Lemma parse_nonempty (text : jsstring) (v : JsValue) :
  Json.parse text = Some v -> exists c r, text = c :: r.
Proof.
  destruct text as [|c r]; [discriminate|eauto].
Qed.

(** The two handlers on a text that parses to a value with a string [type]. *)
Lemma notificationEffect_parsed (text : jsstring) (obj type message : JsValue) :
  Json.parse text = Some obj ->
  get obj (lit "type") = Some type ->
  get obj (lit "message") = Some message ->
  notificationEffect (Some text)
  = if strict_eq_str type (lit "success") then
      [Toast Success message; SetOpen false; FetchMemories]
    else if strict_eq_str type (lit "warning") then [Toast Warning message]
    else if strict_eq_str type (lit "error") then [Toast Error message]
    else if strict_eq_str type (lit "info") then
      [Toast Neutral message; SetOpen false; FetchMemories]
    else [Toast Success message; SetOpen false; FetchMemories].
Proof.
  intros Hp Ht Hm.
  destruct (parse_nonempty _ _ Hp) as (c & r & ->).
  unfold notificationEffect. simpl truthy_str. cbv iota.
  simpl or_default. rewrite Hp. simpl. rewrite Ht. simpl. rewrite Hm. reflexivity.
Qed.

Lemma handleCreateMemory_parsed (text : jsstring) (detail obj type message : JsValue) :
  Json.parse text = Some obj ->
  get obj (lit "type") = Some type ->
  get obj (lit "message") = Some message ->
  truthy type = true ->
  truthy message = true ->
  handleCreateMemory
    (Some {| message := Some text; response_data_detail := detail |})
  = if strict_eq_str type (lit "success") then
      [Toast Success message; SetOpen false; FetchMemories]
    else if strict_eq_str type (lit "info") then
      [Toast Neutral message; SetOpen false; FetchMemories]
    else if strict_eq_str type (lit "warning") then [Toast Warning message]
    else [Toast Error message].
Proof.
  intros Hp Ht Hm Tt Tm.
  unfold handleCreateMemory, backendNotification. simpl.
  rewrite Hp. simpl. rewrite Ht. simpl. rewrite Hm. simpl.
  unfold js_and. rewrite Tt, Tm.
  repeat destruct (strict_eq_str _ _); reflexivity.
Qed.

(** C1. A create-memory response that resolves to a structured
    [{type, message}] notification (the text parses and [type] is one of the
    four kinds): on 'warning' and on 'error' the handler shows a toast of that
    severity and neither closes the dialog nor fetches the list again; on
    'success' and on 'info' it shows a success, respectively neutral, toast,
    closes the dialog and fetches the list.  This holds for the notification
    effect and for a notification carried by the message of a thrown error,
    which the catch block takes for one when [type] and [message] are both
    truthy. *)
Theorem C1_structured_notification
    (text type : jsstring) (obj message : JsValue) :
  Json.parse text = Some obj ->
  get obj (lit "type") = Some (JStr type) ->
  get obj (lit "message") = Some message ->
  let shown (effects : list UiEffect) :=
    notificationEffect (Some text) = effects
    /\ (truthy message = true ->
        forall detail,
          handleCreateMemory
            (Some {| message := Some text; response_data_detail := detail |})
          = effects) in
  (type = lit "warning" -> shown [Toast Warning message])
  /\ (type = lit "error" -> shown [Toast Error message])
  /\ (type = lit "success" ->
      shown [Toast Success message; SetOpen false; FetchMemories])
  /\ (type = lit "info" ->
      shown [Toast Neutral message; SetOpen false; FetchMemories]).
Proof.
  intros Hp Ht Hm shown. subst shown.
  pose proof (notificationEffect_parsed _ _ _ _ Hp Ht Hm) as Hn.
  repeat split; intros; subst type;
    try (rewrite Hn; eval_switch; reflexivity);
    (rewrite (handleCreateMemory_parsed _ detail _ _ _ Hp Ht Hm) by auto;
     eval_switch; reflexivity).
Qed.

(** The spec's example: a duplicate warning leaves the dialog open. *)
Lemma C1_warning_witness :
  let effects :=
    notificationEffect
      (Some (json_text "{'type':'warning','message':'Duplicate'}")) in
  effects = [Toast Warning (JStr (lit "Duplicate"))]
  /\ closesDialog effects = false
  /\ refreshesList effects = false.
Proof.
  assert (H : notificationEffect
                (Some (json_text "{'type':'warning','message':'Duplicate'}"))
              = [Toast Warning (JStr (lit "Duplicate"))]).
  { refine (proj1 (proj1 (C1_structured_notification
                            (json_text "{'type':'warning','message':'Duplicate'}")
                            (lit "warning") _ _ _ _ _) eq_refl));
      vm_compute; reflexivity. }
  simpl. rewrite H. repeat split.
Defined.

(** C2 (counterexample). A thrown error whose message is not JSON is shown
    as an error toast; the dialog stays open and the list is not fetched. *)
Lemma C2_thrown_error_counterexample :
  let error := {| message := Some (lit "Network Error");
                  response_data_detail := JUndefined |} in
  Json.parse (lit "Network Error") = None
  /\ handleCreateMemory (Some error) = [Toast Error (JStr (lit "Network Error"))]
  /\ toasts (handleCreateMemory (Some error)) <> [Success]
  /\ closesDialog (handleCreateMemory (Some error)) = false
  /\ refreshesList (handleCreateMemory (Some error)) = false.
Proof.
  vm_compute. repeat split; discriminate.
Qed.

(** A property read that succeeds on a value succeeds for every name. *)
Lemma get_message_of_type (obj type : JsValue) :
  get obj (lit "type") = Some type ->
  exists message, get obj (lit "message") = Some message.
Proof.
  destruct obj; simpl; try discriminate; eauto.
Qed.

(** C2 (amended). A non-empty notification text that is not a notification
    of type 'warning', 'error' or 'info' (text that is no JSON, JSON text
    whose value has no [type] or an unknown one) is shown as a success toast,
    and the dialog closes and the list is fetched again; the toast carries
    the parsed [message] when [type] could be read, and else the text itself.
    A thrown error whose message is not a notification of type 'success',
    'info' or 'warning' with a truthy [message] is shown as an error toast;
    the dialog stays open and the list is not fetched.  The toast carries
    the parsed [message] when [type] and [message] are truthy, and else the
    response detail, else the error's message, else a fixed text. *)
Theorem C2_unrecognised_outcomes (text : jsstring) (error : CaughtError) :
  let thrown := to_string_undef (message error) in
  (text <> [] ->
   parsedType text <> Some (JStr (lit "warning")) ->
   parsedType text <> Some (JStr (lit "error")) ->
   parsedType text <> Some (JStr (lit "info")) ->
   notificationEffect (Some text)
   = [Toast Success
        match parsedType text with
        | Some _ => default JUndefined (parsedMessage text)
        | None => JStr text
        end;
      SetOpen false; FetchMemories])
  /\ ((forall kind,
         parsedType thrown = Some (JStr kind) ->
         truthy (default JUndefined (parsedMessage thrown)) = true ->
         kind <> lit "success" /\ kind <> lit "info" /\ kind <> lit "warning") ->
      handleCreateMemory (Some error)
      = [Toast Error
           match parsedType thrown, parsedMessage thrown with
           | Some type, Some message =>
               if truthy (js_and type message) then message
               else errorMessage error
           | _, _ => errorMessage error
           end]
      /\ closesDialog (handleCreateMemory (Some error)) = false
      /\ refreshesList (handleCreateMemory (Some error)) = false).
Proof.
  cbv zeta. split.
  - intros Hne Hw He Hi. destruct text as [|c r]; [congruence|].
    revert Hw He Hi. unfold notificationEffect, parsedType, parsedMessage.
    simpl truthy_str. cbv iota. simpl or_default.
    destruct (Json.parse (c :: r)) as [obj|]; simpl; [|reflexivity].
    destruct (get obj (lit "type")) as [type|] eqn:Ht; simpl; [|reflexivity].
    intros Hw He Hi.
    destruct (strict_eq_str type (lit "success")); [reflexivity|].
    destruct (strict_eq_str type (lit "warning")) eqn:E1.
    { apply strict_eq_str_true in E1. congruence. }
    destruct (strict_eq_str type (lit "error")) eqn:E2.
    { apply strict_eq_str_true in E2. congruence. }
    destruct (strict_eq_str type (lit "info")) eqn:E3.
    { apply strict_eq_str_true in E3. congruence. }
    reflexivity.
  - intros Hkind.
    assert (Hrun : handleCreateMemory (Some error)
                   = [Toast Error
                        match parsedType (to_string_undef (message error)),
                              parsedMessage (to_string_undef (message error)) with
                        | Some type, Some message =>
                            if truthy (js_and type message) then message
                            else errorMessage error
                        | _, _ => errorMessage error
                        end]).
    { revert Hkind.
      unfold handleCreateMemory, backendNotification, parsedType, parsedMessage,
        errorMessage.
      destruct (Json.parse (to_string_undef (message error))) as [obj|];
        simpl; [|reflexivity].
      destruct (get obj (lit "type")) as [type|] eqn:Ht; simpl; [|reflexivity].
      destruct (get_message_of_type _ _ Ht) as [msg Hm]. rewrite Hm. simpl.
      intros Hkind.
      destruct (truthy (js_and type msg)) eqn:Tb; [|reflexivity].
      assert (Tm : truthy msg = true).
      { unfold js_and in Tb. destruct (truthy type) eqn:Tt; congruence. }
      destruct (strict_eq_str type (lit "success")) eqn:E1.
      { apply strict_eq_str_true in E1. subst type.
        destruct (Hkind _ eq_refl Tm) as (H & _ & _). congruence. }
      destruct (strict_eq_str type (lit "info")) eqn:E2.
      { apply strict_eq_str_true in E2. subst type.
        destruct (Hkind _ eq_refl Tm) as (_ & H & _). congruence. }
      destruct (strict_eq_str type (lit "warning")) eqn:E3.
      { apply strict_eq_str_true in E3. subst type.
        destruct (Hkind _ eq_refl Tm) as (_ & _ & H). congruence. }
      reflexivity. }
    rewrite Hrun. auto.
Qed.

(** JSON text without a [type] (it closes the dialog with an empty success
    toast), and an error that is no notification. *)
Lemma C2_unrecognised_witness :
  notificationEffect (Some (json_text "{'foo':1}"))
  = [Toast Success JUndefined; SetOpen false; FetchMemories]
  /\ handleCreateMemory
       (Some {| message := Some (lit "Network Error");
                response_data_detail := JUndefined |})
     = [Toast Error (JStr (lit "Network Error"))].
Proof.
  pose proof (C2_unrecognised_outcomes (json_text "{'foo':1}")
                {| message := Some (lit "Network Error");
                   response_data_detail := JUndefined |}) as [Hn He].
  split.
  - etransitivity.
    + apply Hn; vm_compute; discriminate.
    + vm_compute. reflexivity.
  - etransitivity.
    + apply He. intros kind Hk. vm_compute in Hk. discriminate Hk.
    + vm_compute. reflexivity.
Defined.

(** The spec's plain text, a number, and a notification of an unknown type:
    all three are shown as a success and close the dialog. *)
Example notification_unrecognised :
  notificationEffect (Some (lit "Memory created"))
  = [Toast Success (JStr (lit "Memory created")); SetOpen false; FetchMemories]
  /\ notificationEffect (Some (lit "42"))
     = [Toast Success JUndefined; SetOpen false; FetchMemories]
  /\ notificationEffect (Some (json_text "{'type':'fatal','message':'x'}"))
     = [Toast Success (JStr (lit "x")); SetOpen false; FetchMemories].
Proof. vm_compute. auto. Qed.

End Notifications.

(** ** Completing an SSO login *)

(** C3 (counterexample). After a successful callback the access token is in
    the session-scoped store and not in the durable store. *)
Lemma C3_durable_token_counterexample :
  let w' := run AuthCallbackPage.handleCallback
              (tab env_keycloak (oidc_with alice) ∅ ∅) in
  In (SetStatus StatusSuccess) (events w')
  /\ sessionStorage w' !! lit "access_token" = Some (lit "tok-1")
  /\ localStorage w' !! lit "access_token" = None.
Proof.
  vm_compute. repeat split. do 9 right. left. reflexivity.
Qed.

(** C3 (amended). On a successful SSO callback [handleCallback] writes
    user_id, user_name, user_email, access_token and auth_type = 'keycloak'
    into the session-scoped store and then user_id, user_name, user_email and
    auth_type = 'keycloak' into the durable store; the access token is not
    written to the durable store. *)
Theorem C3_callback_persists_session
    (w : World) (user : User) (again : option User) :
  result KeycloakService.initialize w = Ok true ->
  signinRedirectCallback (oidc w) = Ok (Some user) ->
  getUser_answer (oidc w) (getUserCalls w) = Ok again ->
  let userId := sub (profile user) in
  let userName := KeycloakService.getUserName user in
  let userEmail := or_default (email (profile user)) [] in
  let accessToken := or_default (or_str (access_token <$> again) None) [] in
  let w' := run AuthCallbackPage.handleCallback w in
  (sessionStorage w' !! lit "user_id" = Some userId
   /\ sessionStorage w' !! lit "user_name" = Some userName
   /\ sessionStorage w' !! lit "user_email" = Some userEmail
   /\ sessionStorage w' !! lit "access_token" = Some accessToken
   /\ sessionStorage w' !! lit "auth_type" = Some (lit "keycloak"))
  /\ (localStorage w' !! lit "user_id" = Some userId
      /\ localStorage w' !! lit "user_name" = Some userName
      /\ localStorage w' !! lit "user_email" = Some userEmail
      /\ localStorage w' !! lit "auth_type" = Some (lit "keycloak")
      /\ localStorage w' !! lit "access_token" = localStorage w !! lit "access_token")
  /\ events w'
     = events w
       ++ [SetItem SessionStore (lit "user_id") userId;
           SetItem SessionStore (lit "user_name") userName;
           SetItem SessionStore (lit "user_email") userEmail;
           SetItem SessionStore (lit "access_token") accessToken;
           SetItem SessionStore (lit "auth_type") (lit "keycloak");
           SetItem LocalStore (lit "user_id") userId;
           SetItem LocalStore (lit "user_name") userName;
           SetItem LocalStore (lit "user_email") userEmail;
           SetItem LocalStore (lit "auth_type") (lit "keycloak");
           SetStatus StatusSuccess;
           SetTimeout (RouterPush (lit "/")) 1500].
Proof.
  intros Hinit Hcb Hget.
  destruct (handleCallback_success w user again Hinit Hcb Hget) as (Hs & Hl & He).
  cbv zeta. rewrite Hs, Hl, He.
  repeat split;
    repeat (first [ apply lookup_insert_eq
                  | rewrite lookup_insert_ne by key_neq ]);
    reflexivity.
Qed.

Lemma C3_callback_witness :
  let w' := run AuthCallbackPage.handleCallback
              (tab env_keycloak (oidc_with alice) ∅ ∅) in
  sessionStorage w' !! lit "access_token" = Some (lit "tok-1")
  /\ localStorage w' !! lit "auth_type" = Some (lit "keycloak")
  /\ localStorage w' !! lit "access_token" = None.
Proof.
  pose proof (C3_callback_persists_session
                (tab env_keycloak (oidc_with alice) ∅ ∅) alice (Some alice)
                eq_refl eq_refl eq_refl) as (Hs & Hl & _).
  cbv zeta in Hs, Hl.
  destruct Hs as (_ & _ & _ & Htok & _).
  destruct Hl as (_ & _ & _ & Hty & Hno).
  cbv zeta. split; [exact Htok | split; [exact Hty | exact Hno]].
Defined.

(** ** Storage keys written by a login *)

(** C4 (the code at the failing input). An accepted API-key login on empty
    stores: api_key, user_id and user_name are the same in both stores, and
    auth_type is written to the session-scoped store only. *)
Theorem C4_api_key_login_auth_type :
  let w' := run (LoginPage.handleApiKeyLogin (lit "mem_lab_1") (Ok login_ok))
              (tab env_unconfigured no_oidc ∅ ∅) in
  (forall key, In key [lit "api_key"; lit "user_id"; lit "user_name"] ->
               sessionStorage w' !! key = localStorage w' !! key)
  /\ sessionStorage w' !! lit "auth_type" = Some (lit "api_key")
  /\ localStorage w' !! lit "auth_type" = None.
Proof.
  cbv zeta. split; [|split; vm_compute; reflexivity].
  intros key [<-|[<-|[<-|[]]]]; vm_compute; reflexivity.
Qed.

(** The SSO half of the same statement holds: auth_type reaches both stores
    and only the access token stays out of the durable one. *)
Lemma callback_durable_keys (w : World) (user : User) (again : option User) :
  result KeycloakService.initialize w = Ok true ->
  signinRedirectCallback (oidc w) = Ok (Some user) ->
  getUser_answer (oidc w) (getUserCalls w) = Ok again ->
  let w' := run AuthCallbackPage.handleCallback w in
  forall key,
    In key [lit "user_id"; lit "user_name"; lit "user_email"; lit "auth_type"] ->
    sessionStorage w' !! key = localStorage w' !! key.
Proof.
  intros Hinit Hcb Hget.
  destruct (handleCallback_success w user again Hinit Hcb Hget) as (Hs & Hl & _).
  cbv zeta. rewrite Hs, Hl.
  intros key [<-|[<-|[<-|[<-|[]]]]];
    repeat (first [ rewrite lookup_insert_eq
                  | rewrite lookup_insert_ne by key_neq ]);
    reflexivity.
Qed.

(** A stale durable auth_type: an API-key login after an SSO login leaves
    'keycloak' in the durable store next to the new API key. *)
Lemma api_key_login_after_sso :
  let w1 := run AuthCallbackPage.handleCallback
              (tab env_keycloak (oidc_with alice) ∅ ∅) in
  let w2 := run (LoginPage.handleApiKeyLogin (lit "mem_lab_1") (Ok login_ok)) w1 in
  sessionStorage w2 !! lit "auth_type" = Some (lit "api_key")
  /\ localStorage w2 !! lit "auth_type" = Some (lit "keycloak")
  /\ localStorage w2 !! lit "api_key" = Some (lit "mem_lab_1").
Proof.
  vm_compute. auto.
Qed.

(** ** Reading the session back *)

(** The lookup order: [checkAuth] takes the API key of the session-scoped
    store when that value is present and not empty, and otherwise the value
    of the durable store.  With a key it only sets the current user; without
    one it only navigates to /login. *)
Lemma checkAuth_session_first (w : World) :
  hasWindow w = true ->
  let fromSession := sessionStorage w !! lit "api_key" in
  let fromDurable := localStorage w !! lit "api_key" in
  let apiKey := or_str fromSession fromDurable in
  let userId := or_str (sessionStorage w !! lit "user_id")
                       (localStorage w !! lit "user_id") in
  let userName := or_str (sessionStorage w !! lit "user_name")
                         (localStorage w !! lit "user_name") in
  (nonempty fromSession -> apiKey = fromSession)
  /\ (~ nonempty fromSession -> apiKey = fromDurable)
  /\ (nonempty apiKey ->
      run SettingsPage.checkAuth w
      = log (SetCurrentUser {| cu_userId := userId; cu_userName := userName;
                               cu_apiKey := or_default apiKey [] |}) w
      /\ run MemoriesPage.checkAuth w
         = log (SetCurrentUser
                  {| cu_userId := userId; cu_userName := userName;
                     cu_apiKey := firstn 10 (or_default apiKey []) ++ lit "..." |})
             w)
  /\ (~ nonempty apiKey ->
      run SettingsPage.checkAuth w = log (RouterPush (lit "/login")) w
      /\ run MemoriesPage.checkAuth w = log (RouterPush (lit "/login")) w)
  /\ (fromSession = None -> fromDurable = None -> ~ nonempty apiKey).
Proof.
  intros Hw. cbv zeta.
  pose proof (settings_checkAuth_run w Hw) as Hs.
  pose proof (memories_checkAuth_run w Hw) as Hm.
  cbv zeta in Hs, Hm. rewrite Hs, Hm. clear Hs Hm.
  set (apiKey := or_str (sessionStorage w !! lit "api_key")
                        (localStorage w !! lit "api_key")).
  split; [|split; [|split; [|split]]].
  - intros Hn%truthy_str_nonempty. unfold apiKey, or_str. rewrite Hn. reflexivity.
  - intros Hn. unfold apiKey, or_str.
    destruct (truthy_str (sessionStorage w !! lit "api_key")) eqn:Ht; [|reflexivity].
    apply truthy_str_nonempty in Ht. contradiction.
  - intros Hn%truthy_str_nonempty. rewrite Hn. split; reflexivity.
  - intros Hn. destruct (truthy_str apiKey) eqn:Ht; [|split; reflexivity].
    apply truthy_str_nonempty in Ht. contradiction.
  - intros Hs Hl (c & r & Habs). unfold apiKey in Habs.
    rewrite Hs, Hl in Habs. discriminate Habs.
Qed.

(** The fallback is [||]: an api_key that is present and empty in the
    session-scoped store is passed over like an absent one. *)
Example checkAuth_empty_session_key :
  let w := tab env_unconfigured no_oidc
             {[ lit "api_key" := [] ]} {[ lit "api_key" := lit "mem_lab_1" ]} in
  sessionStorage w !! lit "api_key" = Some []
  /\ events (run SettingsPage.checkAuth w)
     = [SetCurrentUser {| cu_userId := None; cu_userName := None;
                          cu_apiKey := lit "mem_lab_1" |}].
Proof.
  vm_compute. auto.
Qed.

(** C5 (the code at the failing input). In every state where neither store
    holds an api_key, whatever else is stored, [checkAuth] of both pages
    navigates to /login and does nothing else.  The settings page stops
    there.  The mount effect of the memories page goes on after the
    redirect: it still starts [fetchMemories] and [fetchUsers].  No store is
    written. *)
Theorem C5_memories_page_fetches_after_redirect (w : World) :
  hasWindow w = true ->
  sessionStorage w !! lit "api_key" = None ->
  localStorage w !! lit "api_key" = None ->
  run SettingsPage.checkAuth w = log (RouterPush (lit "/login")) w
  /\ run MemoriesPage.checkAuth w = log (RouterPush (lit "/login")) w
  /\ events (run SettingsPage.mountEffect w)
     = events w ++ [RouterPush (lit "/login")]
  /\ events (run MemoriesPage.mountEffect w)
     = events w ++ [RouterPush (lit "/login"); FetchMemories; FetchUsers]
  /\ sessionStorage (run MemoriesPage.mountEffect w) = sessionStorage w
  /\ localStorage (run MemoriesPage.mountEffect w) = localStorage w.
Proof.
  intros Hw Hs Hl.
  pose proof (settings_checkAuth_run w Hw) as Hcs.
  pose proof (memories_checkAuth_run w Hw) as Hcm.
  cbv zeta in Hcs, Hcm. rewrite Hs, Hl in Hcs, Hcm.
  cbn [or_str truthy_str] in Hcs, Hcm.
  split; [exact Hcs|]. split; [exact Hcm|].
  split.
  { unfold SettingsPage.mountEffect. rewrite Hcs. reflexivity. }
  split; [exact (memories_mount_after_redirect w Hw Hs Hl)|].
  assert (Hrun : run MemoriesPage.mountEffect w
                 = log FetchUsers
                     (log FetchMemories (log (RouterPush (lit "/login")) w))).
  { unfold run, MemoriesPage.mountEffect, bind at 1.
    rewrite (memories_checkAuth_pair w Hw). cbv zeta. rewrite Hs, Hl.
    cbn [or_str truthy_str]. reflexivity. }
  rewrite Hrun. split; reflexivity.
Qed.

(** The failing input: a tab that holds the complete SSO session of a
    successful callback, and no api_key. *)
Lemma C5_sso_session_witness :
  let w := run AuthCallbackPage.handleCallback
             (tab env_keycloak (oidc_with alice) ∅ ∅) in
  sessionStorage w !! lit "user_id" = Some (lit "abc")
  /\ sessionStorage w !! lit "auth_type" = Some (lit "keycloak")
  /\ sessionStorage w !! lit "access_token" = Some (lit "tok-1")
  /\ events (run SettingsPage.mountEffect w)
     = events w ++ [RouterPush (lit "/login")]
  /\ events (run MemoriesPage.mountEffect w)
     = events w ++ [RouterPush (lit "/login"); FetchMemories; FetchUsers].
Proof.
  cbv zeta.
  set (w := run AuthCallbackPage.handleCallback
              (tab env_keycloak (oidc_with alice) ∅ ∅)).
  assert (Hs : sessionStorage w !! lit "api_key" = None) by (vm_compute; reflexivity).
  assert (Hl : localStorage w !! lit "api_key" = None) by (vm_compute; reflexivity).
  pose proof (C5_memories_page_fetches_after_redirect w eq_refl Hs Hl)
    as (_ & _ & Hset & Hmem & _).
  split; [vm_compute; reflexivity|].
  split; [vm_compute; reflexivity|].
  split; [vm_compute; reflexivity|].
  split; [exact Hset|exact Hmem].
Defined.

(** ** Logging out *)

(** C6. [handleLogout] clears both stores, every key of them, and navigates
    to /login; a [checkAuth] that follows finds no session and only
    redirects. *)
Theorem C6_logout_clears_everything (w : World) :
  hasWindow w = true ->
  let w' := run SettingsPage.handleLogout w in
  run MemoriesPage.handleLogout w = w'
  /\ sessionStorage w' = ∅
  /\ localStorage w' = ∅
  /\ (forall key, sessionStorage w' !! key = None /\ localStorage w' !! key = None)
  /\ events w'
     = events w ++ [Clear SessionStore; Clear LocalStore; RouterPush (lit "/login")]
  /\ run SettingsPage.checkAuth w' = log (RouterPush (lit "/login")) w'
  /\ run MemoriesPage.checkAuth w' = log (RouterPush (lit "/login")) w'.
Proof.
  intros Hw. cbv zeta.
  destruct (handleLogout_run w Hw) as [Hrun Hsame]. rewrite Hsame.
  split; [reflexivity|].
  assert (Hs : sessionStorage (run SettingsPage.handleLogout w) = ∅)
    by (rewrite Hrun; reflexivity).
  assert (Hl : localStorage (run SettingsPage.handleLogout w) = ∅)
    by (rewrite Hrun; reflexivity).
  assert (Hw' : hasWindow (run SettingsPage.handleLogout w) = true)
    by (rewrite Hrun; exact Hw).
  split; [exact Hs|]. split; [exact Hl|].
  split; [intros key; rewrite Hs, Hl; split; apply lookup_empty|].
  split.
  { rewrite Hrun. unfold log, with_stores. simpl. flatten_trace. reflexivity. }
  pose proof (settings_checkAuth_run _ Hw') as Hcs.
  pose proof (memories_checkAuth_run _ Hw') as Hcm.
  cbv zeta in Hcs, Hcm. rewrite Hcs, Hcm, Hs, Hl.
  rewrite !lookup_empty. split; reflexivity.
Qed.

Lemma C6_logout_witness :
  let w := run (LoginPage.handleApiKeyLogin (lit "mem_lab_1") (Ok login_ok))
             (tab env_unconfigured no_oidc {[ lit "theme" := lit "dark" ]} ∅) in
  let w' := run SettingsPage.handleLogout w in
  sessionStorage w !! lit "theme" = Some (lit "dark")
  /\ localStorage w !! lit "api_key" = Some (lit "mem_lab_1")
  /\ sessionStorage w' = ∅
  /\ localStorage w' = ∅
  /\ run SettingsPage.checkAuth w' = log (RouterPush (lit "/login")) w'.
Proof.
  cbv zeta.
  set (w := run (LoginPage.handleApiKeyLogin (lit "mem_lab_1") (Ok login_ok))
              (tab env_unconfigured no_oidc {[ lit "theme" := lit "dark" ]} ∅)).
  pose proof (C6_logout_clears_everything w eq_refl) as H.
  cbv zeta in H. destruct H as (_ & Hs & Hl & _ & _ & Hc & _).
  split; [vm_compute; reflexivity|].
  split; [vm_compute; reflexivity|].
  auto.
Defined.

(** ** The subject claim *)




(** ** Which authentication mode *)

(** C8. [initialize] answers true exactly when the Keycloak URL, realm and
    client id are all present and not empty; otherwise it answers false,
    leaves the service without a user manager as it was, and the login page
    shows the API-key form. *)
Theorem C8_sso_available_iff_configured (w : World) :
  let complete :=
    nonempty (NEXT_PUBLIC_KEYCLOAK_URL (env w))
    /\ nonempty (NEXT_PUBLIC_KEYCLOAK_REALM (env w))
    /\ nonempty (NEXT_PUBLIC_KEYCLOAK_CLIENT_ID (env w)) in
  (result KeycloakService.initialize w = Ok true <-> complete)
  /\ (result KeycloakService.initialize w = Ok false <-> ~ complete)
  /\ (~ complete ->
      run KeycloakService.initialize w = w
      /\ (hasWindow w = true ->
          run LoginPage.mountEffect w = log (SetUseKeycloak false) w)).
Proof.
  cbv zeta. rewrite initialize_result.
  rewrite <- !truthy_str_nonempty.
  assert (Hfalse :
            ~ (truthy_str (NEXT_PUBLIC_KEYCLOAK_URL (env w)) = true
               /\ truthy_str (NEXT_PUBLIC_KEYCLOAK_REALM (env w)) = true
               /\ truthy_str (NEXT_PUBLIC_KEYCLOAK_CLIENT_ID (env w)) = true)
            -> result KeycloakService.initialize w = Ok false).
  { rewrite initialize_result.
    destruct (truthy_str (NEXT_PUBLIC_KEYCLOAK_URL (env w)));
      destruct (truthy_str (NEXT_PUBLIC_KEYCLOAK_REALM (env w)));
      destruct (truthy_str (NEXT_PUBLIC_KEYCLOAK_CLIENT_ID (env w)));
      simpl; intros Hn; try reflexivity.
    exfalso. apply Hn. auto. }
  split; [|split].
  - destruct (truthy_str (NEXT_PUBLIC_KEYCLOAK_URL (env w)));
      destruct (truthy_str (NEXT_PUBLIC_KEYCLOAK_REALM (env w)));
      destruct (truthy_str (NEXT_PUBLIC_KEYCLOAK_CLIENT_ID (env w)));
      simpl; split; try tauto; try discriminate; intros (? & ? & ?); discriminate.
  - destruct (truthy_str (NEXT_PUBLIC_KEYCLOAK_URL (env w)));
      destruct (truthy_str (NEXT_PUBLIC_KEYCLOAK_REALM (env w)));
      destruct (truthy_str (NEXT_PUBLIC_KEYCLOAK_CLIENT_ID (env w)));
      simpl; split; try tauto; try discriminate; try (intros _ (? & ? & ?); discriminate).
  - intros Hn. specialize (Hfalse Hn).
    pose proof (initialize_false_run w Hfalse) as Hrun.
    split; [exact Hrun|].
    intros Hw. unfold run, LoginPage.mountEffect, bind at 1, gets at 1.
    rewrite Hw. simpl. unfold bind at 1.
    unfold run in Hrun. unfold result in Hfalse.
    destruct (KeycloakService.initialize w) as [r w1]. simpl in *. subst.
    reflexivity.
Qed.

(** ** The display name *)

(** C9 (counterexample). A [preferred_username] that is present and empty
    is passed over for [name]. *)
Lemma C9_empty_username_counterexample :
  preferred_username (profile empty_username) = Some []
  /\ KeycloakService.getUserName empty_username = lit "Alice"
  /\ KeycloakService.getUserName empty_username <> [].
Proof.
  vm_compute. repeat split. discriminate.
Qed.

(** C9 (amended). The user name is [preferred_username] when that is present
    and not empty, otherwise [name] when that is present and not empty,
    otherwise [sub]; it is what a successful callback stores as user_name. *)
Theorem C9_user_name_precedence (user : User) :
  let p := profile user in
  (nonempty (preferred_username p) ->
   Some (KeycloakService.getUserName user) = preferred_username p)
  /\ (~ nonempty (preferred_username p) -> nonempty (name p) ->
      Some (KeycloakService.getUserName user) = name p)
  /\ (~ nonempty (preferred_username p) -> ~ nonempty (name p) ->
      KeycloakService.getUserName user = sub p)
  /\ forall w again,
       result KeycloakService.initialize w = Ok true ->
       signinRedirectCallback (oidc w) = Ok (Some user) ->
       getUser_answer (oidc w) (getUserCalls w) = Ok again ->
       sessionStorage (run AuthCallbackPage.handleCallback w) !! lit "user_name"
       = Some (KeycloakService.getUserName user).
Proof.
  cbv zeta. unfold KeycloakService.getUserName, or_str.
  rewrite <- !truthy_str_nonempty.
  repeat split.
  - intros Hp. rewrite Hp.
    destruct (preferred_username (profile user)) as [[|c r]|]; try discriminate.
    reflexivity.
  - intros Hp Hn.
    destruct (truthy_str (preferred_username (profile user))); [congruence|].
    destruct (name (profile user)) as [[|c r]|]; try discriminate.
    reflexivity.
  - intros Hp Hn.
    destruct (truthy_str (preferred_username (profile user))); [congruence|].
    destruct (name (profile user)) as [[|c r]|]; try reflexivity.
    simpl in Hn. congruence.
  - intros w again Hinit Hcb Hget.
    destruct (handleCallback_success w user again Hinit Hcb Hget) as (Hs & _).
    rewrite Hs. rewrite !lookup_insert_ne by key_neq. apply lookup_insert_eq.
Qed.

(** The spec's example: no preferred_username, name Alice. *)
Lemma getUserName_alice : KeycloakService.getUserName alice = lit "Alice".
Proof. reflexivity. Qed.

(** ** An SSO user already signed in *)

(** C10. When [checkKeycloakAuth] finds a signed-in user it writes user_id,
    user_name, access_token and auth_type into the session-scoped store and
    then navigates to the dashboard: nothing else is written there, the
    durable store is unchanged, and user_email is written in neither. *)
Theorem C10_signed_in_user_session_only
    (w : World) (um : UserManagerSettings) (u1 u2 : User) (again : option User) :
  userManager (service w) = Some um ->
  getUser_answer (oidc w) (getUserCalls w) = Ok (Some u1) ->
  default false (expired u1) = false ->
  getUser_answer (oidc w) (S (getUserCalls w)) = Ok (Some u2) ->
  getUser_answer (oidc w) (S (S (getUserCalls w))) = Ok again ->
  let accessToken := or_default (or_str (access_token <$> again) None) [] in
  let written := [lit "user_id"; lit "user_name"; lit "access_token"; lit "auth_type"] in
  let w' := run LoginPage.checkKeycloakAuth w in
  events w'
  = events w
    ++ [SetItem SessionStore (lit "user_id") (sub (profile u2));
        SetItem SessionStore (lit "user_name") (KeycloakService.getUserName u2);
        SetItem SessionStore (lit "access_token") accessToken;
        SetItem SessionStore (lit "auth_type") (lit "keycloak");
        RouterPush (lit "/")]
  /\ localStorage w' = localStorage w
  /\ (forall key, ~ In key written ->
                  sessionStorage w' !! key = sessionStorage w !! key)
  /\ sessionStorage w' !! lit "user_email" = sessionStorage w !! lit "user_email"
  /\ sessionStorage w' !! lit "user_id" = Some (sub (profile u2))
  /\ sessionStorage w' !! lit "user_name" = Some (KeycloakService.getUserName u2)
  /\ sessionStorage w' !! lit "access_token" = Some accessToken
  /\ sessionStorage w' !! lit "auth_type" = Some (lit "keycloak").
Proof.
  intros Hum H1 Hexp H2 H3.
  destruct (checkKeycloakAuth_signed_in w um u1 u2 again Hum H1 Hexp H2 H3)
    as (Hs & Hl & He).
  cbv zeta. rewrite Hs, Hl, He.
  split; [reflexivity|]. split; [reflexivity|].
  split.
  { intros key Hkey. simpl in Hkey.
    rewrite !lookup_insert_ne; [reflexivity|..]; intros <-; tauto. }
  repeat split;
    repeat (first [ apply lookup_insert_eq
                  | rewrite lookup_insert_ne by key_neq ]);
    reflexivity.
Qed.

Lemma C10_signed_in_witness :
  let w := run KeycloakService.initialize
             (tab env_keycloak (oidc_with alice)
                ∅ {[ lit "user_email" := lit "old@lab.example" ]}) in
  let w' := run LoginPage.checkKeycloakAuth w in
  localStorage w' = localStorage w
  /\ sessionStorage w' !! lit "user_email" = None
  /\ sessionStorage w' !! lit "access_token" = Some (lit "tok-1").
Proof.
  cbv zeta.
  set (w := run KeycloakService.initialize
              (tab env_keycloak (oidc_with alice)
                 ∅ {[ lit "user_email" := lit "old@lab.example" ]})).
  assert (Hum : exists um, userManager (service w) = Some um)
    by (eexists; reflexivity).
  destruct Hum as [um Hum].
  pose proof (C10_signed_in_user_session_only w um alice alice (Some alice)
                Hum eq_refl eq_refl eq_refl eq_refl) as H.
  cbv zeta in H. destruct H as (_ & Hl & _ & Hmail & _ & _ & Htok & _).
  split; [exact Hl|]. split; [rewrite Hmail; vm_compute; reflexivity|exact Htok].
Defined.

(** Without a Keycloak configuration the login page falls back to the
    API-key form. *)
Lemma C8_unconfigured_witness :
  let w := tab env_unconfigured no_oidc ∅ ∅ in
  result KeycloakService.initialize w = Ok false
  /\ run LoginPage.mountEffect w = log (SetUseKeycloak false) w
  /\ result KeycloakService.initialize (tab env_keycloak no_oidc ∅ ∅) = Ok true.
Proof.
  cbv zeta.
  pose proof (C8_sso_available_iff_configured (tab env_unconfigured no_oidc ∅ ∅))
    as H.
  cbv zeta in H. destruct H as (_ & Hfalse & Hfallback).
  assert (Hn : ~ (nonempty (NEXT_PUBLIC_KEYCLOAK_URL (env (tab env_unconfigured no_oidc ∅ ∅)))
                  /\ nonempty (NEXT_PUBLIC_KEYCLOAK_REALM (env (tab env_unconfigured no_oidc ∅ ∅)))
                  /\ nonempty (NEXT_PUBLIC_KEYCLOAK_CLIENT_ID (env (tab env_unconfigured no_oidc ∅ ∅))))).
  { intros [(c & r & Habs) _]. discriminate Habs. }
  split; [exact (proj2 Hfalse Hn)|].
  split; [exact (proj2 (Hfallback Hn) eq_refl)|].
  apply (proj2 (proj1 (C8_sso_available_iff_configured (tab env_keycloak no_oidc ∅ ∅)))).
  repeat split; eexists _, _; reflexivity.
Defined.

(** The spec's example user: the name claim is stored as user_name. *)
Lemma C9_alice_witness :
  sessionStorage (run AuthCallbackPage.handleCallback
                    (tab env_keycloak (oidc_with alice) ∅ ∅)) !! lit "user_name"
  = Some (lit "Alice").
Proof.
  pose proof (C9_user_name_precedence alice) as H.
  cbv zeta in H. destruct H as (_ & _ & _ & Hstored).
  exact (Hstored (tab env_keycloak (oidc_with alice) ∅ ∅) (Some alice)
           eq_refl eq_refl eq_refl).
Defined.

(** ** The examples of the specification *)

Example notification_success_saved :
  CreateMemoryDialog.notificationEffect
    (Some (json_text "{'type':'success','message':'Saved'}"))
  = [CreateMemoryDialog.Toast CreateMemoryDialog.Success (JStr (lit "Saved"));
     CreateMemoryDialog.SetOpen false; CreateMemoryDialog.FetchMemories].
Proof. vm_compute. reflexivity. Qed.

Example thrown_error_too_long :
  CreateMemoryDialog.handleCreateMemory
    (Some {| CreateMemoryDialog.message :=
               Some (json_text "{'type':'error','message':'Too long'}");
             CreateMemoryDialog.response_data_detail := JUndefined |})
  = [CreateMemoryDialog.Toast CreateMemoryDialog.Error (JStr (lit "Too long"))].
Proof. vm_compute. reflexivity. Qed.

(** An empty notification is no notification: nothing is shown. *)
Example notification_empty :
  CreateMemoryDialog.notificationEffect (Some []) = []
  /\ CreateMemoryDialog.notificationEffect None = [].
Proof. split; reflexivity. Qed.

(** A warning without a message is still shown as a warning. *)
Example notification_warning_without_message :
  CreateMemoryDialog.notificationEffect (Some (json_text "{'type':'warning'}"))
  = [CreateMemoryDialog.Toast CreateMemoryDialog.Warning JUndefined].
Proof. vm_compute. reflexivity. Qed.

Lemma events_log (e : Event) (w : World) : events (log e w) = events w ++ [e].
Proof. reflexivity. Qed.

(** Reading the session twice gives the same answer. *)
Lemma checkAuth_idempotent (w : World) :
  hasWindow w = true ->
  let w1 := run SettingsPage.checkAuth w in
  sessionStorage w1 = sessionStorage w
  /\ localStorage w1 = localStorage w
  /\ drop (length (events w1)) (events (run SettingsPage.checkAuth w1))
     = drop (length (events w)) (events w1).
Proof.
  intros Hw. cbv zeta.
  pose proof (settings_checkAuth_run w Hw) as H1. cbv zeta in H1.
  set (w1 := run SettingsPage.checkAuth w) in *.
  assert (Hs : sessionStorage w1 = sessionStorage w)
    by (rewrite H1; destruct (truthy_str _); reflexivity).
  assert (Hl : localStorage w1 = localStorage w)
    by (rewrite H1; destruct (truthy_str _); reflexivity).
  assert (Hw1 : hasWindow w1 = true)
    by (rewrite H1; destruct (truthy_str _); exact Hw).
  split; [exact Hs|]. split; [exact Hl|].
  pose proof (settings_checkAuth_run w1 Hw1) as H2. cbv zeta in H2.
  rewrite Hs, Hl in H2. rewrite H2.
  destruct (truthy_str _); rewrite events_log, drop_app_length;
    rewrite H1, events_log, drop_app_length; reflexivity.
Qed.

(** * Further properties of the session code *)

(** [run_handlers] with the handlers of the SSO button and the silent
    callback. *)
Ltac run_more :=
  lazy beta iota zeta delta
    [run result
     AuthCallbackPage.handleCallback
     LoginPage.checkKeycloakAuth LoginPage.mountEffect LoginPage.handleApiKeyLogin
     LoginPage.handleKeycloakLogin SilentCallbackPage.mountEffect
     SettingsPage.checkAuth SettingsPage.handleLogout SettingsPage.mountEffect
     MemoriesPage.checkAuth MemoriesPage.handleLogout MemoriesPage.mountEffect
     Session.getItem_either
     KeycloakService.initialize KeycloakService.handleCallback
     KeycloakService.getUser KeycloakService.isAuthenticated
     KeycloakService.getAccessToken KeycloakService.isConfigured
     KeycloakService.login KeycloakService.logout
     bind ret gets emit await throw try_catch try_finally
     getItem setItem clear area
     log with_stores with_service with_getUserCalls
     hasWindow env oidc getUserCalls service sessionStorage localStorage events
     userManager config fst snd negb orb andb].

(** [run_more] with the handlers of [RealStorage]. *)
Ltac run_real :=
  lazy beta iota zeta delta
    [run result
     RealStorage.handleCallback RealStorage.checkKeycloakAuth
     RealStorage.service_handleCallback RealStorage.setItem
     RealStorage.with_localStorage
     AuthCallbackPage.handleCallback LoginPage.checkKeycloakAuth
     KeycloakService.initialize KeycloakService.handleCallback
     KeycloakService.getUser KeycloakService.isAuthenticated
     KeycloakService.getAccessToken
     bind ret gets emit await throw try_catch try_finally
     getItem setItem clear area
     log with_stores with_service with_getUserCalls
     hasWindow env oidc getUserCalls service sessionStorage localStorage events
     userManager config fst snd negb orb andb].


(** On a storage that takes every write, with the client's records left
    out, the two handlers run as in the modules of their pages. *)
Lemma accepting_storage (w : World) :
  RealStorage.handleCallback RealStorage.accepting w
  = AuthCallbackPage.handleCallback w
  /\ RealStorage.checkKeycloakAuth RealStorage.accepting w
     = LoginPage.checkKeycloakAuth w.
Proof.
  open_world w. unfold RealStorage.accepting. split.
  - run_real. cbn [RealStorage.refusal RealStorage.userStore].
    case_config e; run_real; try reflexivity;
      destruct (signinRedirectCallback o) as [[user|]|err]; run_real;
      cbn [RealStorage.shownError]; try reflexivity;
      destruct (getUser_answer o n) as [again|err']; run_real; reflexivity.
  - run_real. cbn [RealStorage.refusal RealStorage.userStore].
    destruct svc as [[um|] cfg]; run_real; try reflexivity;
      destruct (getUser_answer o n) as [[u1|]|e1]; run_real; try reflexivity;
      destruct (default false (expired u1)); run_real; try reflexivity;
      destruct (getUser_answer o (S n)) as [[u2|]|e2]; run_real; try reflexivity;
      destruct (getUser_answer o (S (S n))) as [again|e3]; run_real; reflexivity.
Qed.



(** A full durable store: the session-scoped store holds the complete SSO
    session, the durable store only the client's record, and the page shows
    the error and returns to /login. *)
Example callback_durable_store_full :
  let w' := run (RealStorage.handleCallback durable_store_full)
              (tab env_keycloak (oidc_with alice) ∅ ∅) in
  result (RealStorage.handleCallback durable_store_full)
    (tab env_keycloak (oidc_with alice) ∅ ∅) = Ok tt
  /\ sessionStorage w' !! lit "user_id" = Some (lit "abc")
  /\ sessionStorage w' !! lit "access_token" = Some (lit "tok-1")
  /\ sessionStorage w' !! lit "auth_type" = Some (lit "keycloak")
  /\ localStorage w' = {[ lit "oidc.user" := lit "alice" ]}
  /\ events w'
     = [SetItem SessionStore (lit "user_id") (lit "abc");
        SetItem SessionStore (lit "user_name") (lit "Alice");
        SetItem SessionStore (lit "user_email") (lit "alice@lab.example");
        SetItem SessionStore (lit "access_token") (lit "tok-1");
        SetItem SessionStore (lit "auth_type") (lit "keycloak");
        SetError (lit "QuotaExceededError"); SetStatus StatusError;
        SetTimeout (RouterPush (lit "/login")) 3000].
Proof.
  vm_compute. auto 10.
Qed.

(** X2. What a failed callback shows: the fixed text when Keycloak is not
    configured or the provider returns no user, the message of the error
    when the provider or the token accessor throws an [Error], and
    'Authentication failed' for any other thrown value.  A token accessor
    that throws fails the login although the provider returned a user. *)
Theorem callback_failure_message (w : World) :
  let shown m :=
    events (run AuthCallbackPage.handleCallback w)
    = events w ++ AuthCallbackPage.callback_failure m in
  let text (err : Thrown) :=
    match err with
    | ErrorObj m => m
    | NonError => lit "Authentication failed"
    end in
  (result KeycloakService.initialize w = Ok false ->
   shown (lit "Keycloak not configured"))
  /\ (result KeycloakService.initialize w = Ok true ->
      (forall err, signinRedirectCallback (oidc w) = Throw err -> shown (text err))
      /\ (signinRedirectCallback (oidc w) = Ok None ->
          shown (lit "No user returned from callback"))
      /\ (forall user err,
            signinRedirectCallback (oidc w) = Ok (Some user) ->
            getUser_answer (oidc w) (getUserCalls w) = Throw err ->
            shown (text err))).
Proof.
  cbv zeta. unfold AuthCallbackPage.callback_failure. open_world w.
  split.
  - run_handlers. case_config e; intros Hinit; try discriminate Hinit;
      run_handlers; flatten_trace; reflexivity.
  - run_handlers. case_config e; intros Hinit; try discriminate Hinit.
    split; [|split].
    + intros err Hcb. rewrite Hcb. run_handlers.
      destruct err; flatten_trace; reflexivity.
    + intros Hcb. rewrite Hcb. run_handlers. flatten_trace. reflexivity.
    + intros user err Hcb Hget. rewrite Hcb. run_handlers. rewrite Hget.
      run_handlers. destruct err; flatten_trace; reflexivity.
Qed.

(** A provider that rejects the callback with an error of its own. *)
Lemma callback_failure_message_witness :
  events (run AuthCallbackPage.handleCallback
            (tab env_keycloak
               {| signinRedirectCallback := Throw (ErrorObj (lit "invalid state"));
                  getUser_answer := fun _ => Ok None |} ∅ ∅))
  = [SetError (lit "invalid state"); SetStatus StatusError;
     SetTimeout (RouterPush (lit "/login")) 3000].
Proof.
  exact (proj1 (proj2 (callback_failure_message
                         (tab env_keycloak
                            {| signinRedirectCallback :=
                                 Throw (ErrorObj (lit "invalid state"));
                               getUser_answer := fun _ => Ok None |} ∅ ∅))
                 eq_refl)
           (ErrorObj (lit "invalid state")) eq_refl).
Defined.

(** The world after a login that fails, whichever way. *)
Lemma apiKeyLogin_failure_run (w : World) (apiKey m : jsstring)
    (fetched : Outcome Backend.HttpResponse) :
  match fetched with
  | Ok response =>
      Backend.ok response && Backend.success (Backend.data response) = false
      /\ m = or_default (Backend.detail (Backend.data response))
               (lit "Invalid API key")
  | Throw _ =>
      m = lit "Failed to connect to server. Please check your connection."
  end ->
  LoginPage.handleApiKeyLogin apiKey fetched w
  = (Ok tt,
     log (SetLoading false)
       (log (SetError m)
          (log (SetLoading true) (log (SetSuccess false) (log (SetError []) w))))).
Proof.
  open_world w. destruct fetched as [response|err].
  - intros [Hrej ->]. run_handlers.
    destruct (Backend.ok response); cbn [andb] in Hrej;
      [rewrite Hrej|]; run_handlers; reflexivity.
  - intros ->. run_handlers. reflexivity.
Qed.

(** X3. A login the backend does not accept (status not ok, or success
    false) writes neither store: the page shows the detail of the answer,
    or 'Invalid API key' when there is none or it is empty, and stops
    loading. *)
Theorem apiKeyLogin_rejected (w : World) (apiKey : jsstring)
    (response : Backend.HttpResponse) :
  Backend.ok response && Backend.success (Backend.data response) = false ->
  let w' := run (LoginPage.handleApiKeyLogin apiKey (Ok response)) w in
  sessionStorage w' = sessionStorage w
  /\ localStorage w' = localStorage w
  /\ events w'
     = events w
       ++ [SetError []; SetSuccess false; SetLoading true;
           SetError (or_default (Backend.detail (Backend.data response))
                       (lit "Invalid API key"));
           SetLoading false].
Proof.
  intros Hrej. cbv zeta. unfold run.
  rewrite (apiKeyLogin_failure_run w apiKey _ (Ok response) (conj Hrej eq_refl)).
  open_world w. run_handlers. flatten_trace. auto.
Qed.

Lemma apiKeyLogin_rejected_witness :
  let rejected :=
    {| Backend.ok := false;
       Backend.data := {| Backend.success := false; Backend.user_id := None;
                          Backend.name := None;
                          Backend.detail := Some (lit "Unknown key") |} |} in
  let w' := run (LoginPage.handleApiKeyLogin (lit "mem_lab_0") (Ok rejected))
              (tab env_unconfigured no_oidc ∅ ∅) in
  sessionStorage w' = ∅
  /\ localStorage w' = ∅
  /\ events w'
     = [SetError []; SetSuccess false; SetLoading true;
        SetError (lit "Unknown key"); SetLoading false].
Proof.
  exact (apiKeyLogin_rejected (tab env_unconfigured no_oidc ∅ ∅) (lit "mem_lab_0")
           {| Backend.ok := false;
              Backend.data := {| Backend.success := false;
                                 Backend.user_id := None; Backend.name := None;
                                 Backend.detail := Some (lit "Unknown key") |} |}
           eq_refl).
Defined.

(** X4. When the request or the reading of its body throws, whatever is
    thrown, the login writes neither store, shows the connection message and
    stops loading; the handler itself does not throw. *)
Theorem apiKeyLogin_unreachable (w : World) (apiKey : jsstring) (err : Thrown) :
  let w' := run (LoginPage.handleApiKeyLogin apiKey (Throw err)) w in
  result (LoginPage.handleApiKeyLogin apiKey (Throw err)) w = Ok tt
  /\ sessionStorage w' = sessionStorage w
  /\ localStorage w' = localStorage w
  /\ events w'
     = events w
       ++ [SetError []; SetSuccess false; SetLoading true;
           SetError
             (lit "Failed to connect to server. Please check your connection.");
           SetLoading false].
Proof.
  cbv zeta. unfold run, result.
  rewrite (apiKeyLogin_failure_run w apiKey _ (Throw err) eq_refl).
  open_world w. run_handlers. flatten_trace. auto.
Qed.




(** X6. An SSO login alone does not open the protected pages: when neither
    store held an api_key before the callback, [checkAuth] of both pages
    redirects to /login right after a successful callback. *)
Theorem sso_login_then_checkAuth_redirects
    (w : World) (user : User) (again : option User) :
  hasWindow w = true ->
  sessionStorage w !! lit "api_key" = None ->
  localStorage w !! lit "api_key" = None ->
  result KeycloakService.initialize w = Ok true ->
  signinRedirectCallback (oidc w) = Ok (Some user) ->
  getUser_answer (oidc w) (getUserCalls w) = Ok again ->
  let w' := run AuthCallbackPage.handleCallback w in
  In (SetStatus StatusSuccess) (events w')
  /\ run SettingsPage.checkAuth w' = log (RouterPush (lit "/login")) w'
  /\ run MemoriesPage.checkAuth w' = log (RouterPush (lit "/login")) w'.
Proof.
  intros Hw Hs0 Hl0 Hinit Hcb Hget. cbv zeta.
  destruct (handleCallback_success w user again Hinit Hcb Hget) as (Hs & Hl & He).
  cbv zeta in Hs, Hl, He.
  set (w' := run AuthCallbackPage.handleCallback w) in *.
  assert (Hw' : hasWindow w' = true).
  { subst w'. clear Hs Hl He. open_world w. revert Hinit. run_handlers.
    case_config e; intros Hinit; try discriminate Hinit.
    rewrite Hcb. run_handlers. rewrite Hget. run_handlers. exact Hw. }
  assert (Hks : sessionStorage w' !! lit "api_key" = None)
    by (rewrite Hs, !lookup_insert_ne by key_neq; exact Hs0).
  assert (Hkl : localStorage w' !! lit "api_key" = None)
    by (rewrite Hl, !lookup_insert_ne by key_neq; exact Hl0).
  split.
  - rewrite He. apply in_or_app. right. do 9 right. left. reflexivity.
  - rewrite (settings_checkAuth_run w' Hw'), (memories_checkAuth_run w' Hw').
    cbv zeta. rewrite Hks, Hkl. split; reflexivity.
Qed.

Lemma sso_login_then_checkAuth_witness :
  let w' := run AuthCallbackPage.handleCallback
              (tab env_keycloak (oidc_with alice) ∅ ∅) in
  events (run MemoriesPage.checkAuth w')
  = events w' ++ [RouterPush (lit "/login")].
Proof.
  cbv zeta.
  pose proof (sso_login_then_checkAuth_redirects
                (tab env_keycloak (oidc_with alice) ∅ ∅) alice (Some alice)
                eq_refl eq_refl eq_refl eq_refl eq_refl eq_refl) as H.
  cbv zeta in H. destruct H as (_ & _ & Hm). rewrite Hm. reflexivity.
Defined.



(** No room for the access token: user_id and user_name are written, the
    token and auth_type are not, and the page stays where it is. *)
Example checkKeycloakAuth_no_room_for_token :
  let w := run KeycloakService.initialize
             (tab env_keycloak (oidc_with alice) ∅ ∅) in
  let w' := run (RealStorage.checkKeycloakAuth no_room_for_token) w in
  result (RealStorage.checkKeycloakAuth no_room_for_token) w = Ok tt
  /\ sessionStorage w'
     = {[ lit "user_id" := lit "abc"; lit "user_name" := lit "Alice" ]}
  /\ events w'
     = [SetItem SessionStore (lit "user_id") (lit "abc");
        SetItem SessionStore (lit "user_name") (lit "Alice")].
Proof.
  vm_compute. auto.
Qed.

(** X8. Mounting the login page with a complete configuration but no live
    SSO user (the provider answers null, an expired user, or throws) only
    switches the page to the SSO form: no store is written and there is no
    navigation. *)
Theorem login_mount_without_live_user (w : World) :
  hasWindow w = true ->
  result KeycloakService.initialize w = Ok true ->
  (forall user,
     getUser_answer (oidc w) (getUserCalls w) = Ok (Some user) ->
     expired user = Some true) ->
  let w' := run LoginPage.mountEffect w in
  result LoginPage.mountEffect w = Ok tt
  /\ events w' = events w ++ [SetUseKeycloak true]
  /\ sessionStorage w' = sessionStorage w
  /\ localStorage w' = localStorage w.
Proof.
  intros Hw Hinit Hdead. cbv zeta. open_world w. subst hw.
  revert Hinit. run_handlers.
  case_config e; intros Hinit; try discriminate Hinit.
  destruct (getUser_answer o n) as [[u1|]|e1]; run_handlers; auto.
  rewrite (Hdead u1 eq_refl). run_handlers. auto.
Qed.

Lemma login_mount_without_live_user_witness :
  events (run LoginPage.mountEffect (tab env_keycloak no_oidc ∅ ∅))
  = [SetUseKeycloak true].
Proof.
  refine (proj1 (proj2 (login_mount_without_live_user
                          (tab env_keycloak no_oidc ∅ ∅) eq_refl eq_refl _))).
  intros user H. discriminate H.
Defined.

(** The SSO button on a service without a user manager. *)
Lemma handleKeycloakLogin_uninitialised (w : World) (signinRedirect : Outcome unit) :
  userManager (service w) = None ->
  run (LoginPage.handleKeycloakLogin signinRedirect) w
  = log (SetLoading false)
      (log (SetError (lit "Failed to initiate Keycloak login"))
         (log (SetError []) (log (SetLoading true) w))).
Proof.
  intros Hum. open_world w. destruct svc as [um cfg].
  cbn [userManager] in Hum. subst um. run_more. reflexivity.
Qed.

(** X9. The SSO button: when the service has no user manager, or the
    redirect throws, the page shows 'Failed to initiate Keycloak login' and
    stops loading; when the redirect starts, the page stays in its loading
    state and shows no error.  No store is written either way. *)
Theorem keycloak_login_button (w : World) (signinRedirect : Outcome unit) :
  let w' := run (LoginPage.handleKeycloakLogin signinRedirect) w in
  let failed :=
    log (SetLoading false)
      (log (SetError (lit "Failed to initiate Keycloak login"))
         (log (SetError []) (log (SetLoading true) w))) in
  result (LoginPage.handleKeycloakLogin signinRedirect) w = Ok tt
  /\ (userManager (service w) = None -> w' = failed)
  /\ (forall err, signinRedirect = Throw err -> w' = failed)
  /\ (forall um, userManager (service w) = Some um -> signinRedirect = Ok tt ->
                 w' = log (SetError []) (log (SetLoading true) w)).
Proof.
  cbv zeta. open_world w. destruct svc as [[um|] cfg]; run_more.
  - destruct signinRedirect as [[]|err]; run_more.
    + repeat split; try discriminate; reflexivity.
    + repeat split; try discriminate; reflexivity.
  - repeat split; try discriminate; reflexivity.
Qed.

(** X10. A configuration with the Keycloak URL but without the realm or the
    client id: the API-key form still offers the switch to SSO, while the
    service was never initialised, so that the SSO button can only fail,
    whatever the provider would do. *)
Theorem url_only_configuration (w : World) (signinRedirect : Outcome unit) :
  hasWindow w = true ->
  userManager (service w) = None ->
  nonempty (NEXT_PUBLIC_KEYCLOAK_URL (env w)) ->
  ~ (nonempty (NEXT_PUBLIC_KEYCLOAK_REALM (env w))
     /\ nonempty (NEXT_PUBLIC_KEYCLOAK_CLIENT_ID (env w))) ->
  let w1 := run LoginPage.mountEffect w in
  LoginPage.offersSsoLogin (env w1) = true
  /\ w1 = log (SetUseKeycloak false) w
  /\ run (LoginPage.handleKeycloakLogin signinRedirect) w1
     = log (SetLoading false)
         (log (SetError (lit "Failed to initiate Keycloak login"))
            (log (SetError []) (log (SetLoading true) w1))).
Proof.
  intros Hw Hum Hurl Hmissing. cbv zeta.
  rewrite <- !truthy_str_nonempty in Hmissing.
  apply truthy_str_nonempty in Hurl.
  assert (H1 : run LoginPage.mountEffect w = log (SetUseKeycloak false) w).
  { open_world w. subst hw. revert Hurl Hmissing. run_handlers.
    case_config e; intros Hurl Hmissing; try discriminate Hurl;
      try reflexivity.
    exfalso. apply Hmissing. auto. }
  rewrite H1. split; [exact Hurl|]. split; [reflexivity|].
  apply handleKeycloakLogin_uninitialised. exact Hum.
Qed.

Lemma url_only_configuration_witness :
  let w := tab {| NEXT_PUBLIC_KEYCLOAK_URL := Some (lit "https://sso.example");
                  NEXT_PUBLIC_KEYCLOAK_REALM := None;
                  NEXT_PUBLIC_KEYCLOAK_CLIENT_ID := Some (lit "openmemory");
                  origin := lit "https://memory.example" |}
             (oidc_with alice) ∅ ∅ in
  let w1 := run LoginPage.mountEffect w in
  LoginPage.offersSsoLogin (env w1) = true
  /\ events (run (LoginPage.handleKeycloakLogin (Ok tt)) w1)
     = [SetUseKeycloak false; SetLoading true; SetError [];
        SetError (lit "Failed to initiate Keycloak login"); SetLoading false].
Proof.
  cbv zeta.
  pose proof (url_only_configuration
                (tab {| NEXT_PUBLIC_KEYCLOAK_URL := Some (lit "https://sso.example");
                        NEXT_PUBLIC_KEYCLOAK_REALM := None;
                        NEXT_PUBLIC_KEYCLOAK_CLIENT_ID := Some (lit "openmemory");
                        origin := lit "https://memory.example" |}
                   (oidc_with alice) ∅ ∅)
                (Ok tt) eq_refl eq_refl
                ltac:(eexists _, _; reflexivity)
                ltac:(intros [(c & r & Habs) _]; discriminate Habs)) as H.
  cbv zeta in H. destruct H as (Hoffer & _ & Hrun).
  split; [exact Hoffer|]. rewrite Hrun. vm_compute. reflexivity.
Defined.

(** X11. [initialize] only sets the two fields of the service: the stores,
    the trace and the provider are as before, a second call changes nothing
    more and answers the same.  The silent-callback page, which does nothing
    else, therefore leaves storage and trace alone. *)
Theorem initialize_idempotent (w : World) :
  let w1 := run KeycloakService.initialize w in
  sessionStorage w1 = sessionStorage w
  /\ localStorage w1 = localStorage w
  /\ events w1 = events w
  /\ getUserCalls w1 = getUserCalls w
  /\ run KeycloakService.initialize w1 = w1
  /\ result KeycloakService.initialize w1 = result KeycloakService.initialize w
  /\ run SilentCallbackPage.mountEffect w = w1.
Proof.
  cbv zeta. open_world w. run_more.
  destruct (truthy_str (NEXT_PUBLIC_KEYCLOAK_URL e)) eqn:Hurl;
    destruct (truthy_str (NEXT_PUBLIC_KEYCLOAK_REALM e)) eqn:Hrealm;
    destruct (truthy_str (NEXT_PUBLIC_KEYCLOAK_CLIENT_ID e)) eqn:Hclient;
    run_more; rewrite ?Hurl, ?Hrealm, ?Hclient; run_more;
    repeat split; reflexivity.
Qed.

(** X12. Before [initialize] has succeeded the service never asks the
    provider: [getUser] and [getAccessToken] answer null, [isAuthenticated]
    answers false, and [handleCallback], [login] and [logout] throw
    'Keycloak not initialized'; the world is left as it was. *)
Theorem uninitialised_service (w : World) (redirect : Outcome unit) :
  userManager (service w) = None ->
  let notInitialized := ErrorObj (lit "Keycloak not initialized") in
  KeycloakService.getUser w = (Ok None, w)
  /\ KeycloakService.getAccessToken w = (Ok None, w)
  /\ KeycloakService.isAuthenticated w = (Ok false, w)
  /\ KeycloakService.isConfigured w = (Ok false, w)
  /\ KeycloakService.handleCallback w = (Throw notInitialized, w)
  /\ KeycloakService.login redirect w = (Throw notInitialized, w)
  /\ KeycloakService.logout redirect w = (Throw notInitialized, w).
Proof.
  intros Hum. cbv zeta.
  unfold KeycloakService.getUser, KeycloakService.getAccessToken,
    KeycloakService.isAuthenticated, KeycloakService.isConfigured,
    KeycloakService.handleCallback, KeycloakService.login,
    KeycloakService.logout, KeycloakService.getUser,
    bind, gets, ret, throw.
  rewrite Hum. repeat split; reflexivity.
Qed.

Lemma uninitialised_service_witness :
  KeycloakService.getAccessToken (tab env_keycloak (oidc_with alice) ∅ ∅)
  = (Ok None, tab env_keycloak (oidc_with alice) ∅ ∅).
Proof.
  exact (proj1 (proj2 (uninitialised_service
                         (tab env_keycloak (oidc_with alice) ∅ ∅) (Ok tt)
                         eq_refl))).
Defined.

(** X13. [checkAuth] of either page only reads: both stores and the service
    are as before, exactly one event is added, and running it again adds the
    same event once more. *)
Theorem checkAuth_only_reads (w : World) :
  hasWindow w = true ->
  (exists ev,
     run SettingsPage.checkAuth w = log ev w
     /\ run SettingsPage.checkAuth (log ev w) = log ev (log ev w))
  /\ (exists ev,
        run MemoriesPage.checkAuth w = log ev w
        /\ run MemoriesPage.checkAuth (log ev w) = log ev (log ev w)).
Proof.
  intros Hw. split.
  - rewrite (settings_checkAuth_run w Hw). cbv zeta.
    destruct (truthy_str _) eqn:Ht; eexists; (split; [reflexivity|]);
      rewrite (settings_checkAuth_run (log _ w) Hw); cbv zeta;
      cbn [log with_stores sessionStorage localStorage]; rewrite Ht; reflexivity.
  - rewrite (memories_checkAuth_run w Hw). cbv zeta.
    destruct (truthy_str _) eqn:Ht; eexists; (split; [reflexivity|]);
      rewrite (memories_checkAuth_run (log _ w) Hw); cbv zeta;
      cbn [log with_stores sessionStorage localStorage]; rewrite Ht; reflexivity.
Qed.

Lemma checkAuth_only_reads_witness :
  exists ev,
    run SettingsPage.checkAuth (tab env_unconfigured no_oidc ∅ ∅)
    = log ev (tab env_unconfigured no_oidc ∅ ∅).
Proof.
  destruct (proj1 (checkAuth_only_reads (tab env_unconfigured no_oidc ∅ ∅) eq_refl))
    as [ev [H _]].
  exists ev. exact H.
Defined.

(** X14. The memories page starts both of its requests on every run of the
    mount effect, whatever [checkAuth] found, also right after it has
    redirected to /login; the settings page does nothing but [checkAuth]. *)
Theorem memories_mount_always_fetches (w : World) :
  events (run MemoriesPage.mountEffect w)
  = events (run MemoriesPage.checkAuth w) ++ [FetchMemories; FetchUsers]
  /\ sessionStorage (run MemoriesPage.mountEffect w) = sessionStorage w
  /\ localStorage (run MemoriesPage.mountEffect w) = localStorage w
  /\ run SettingsPage.mountEffect w = run SettingsPage.checkAuth w.
Proof.
  assert (Hc : exists w1, MemoriesPage.checkAuth w = (Ok tt, w1)
                          /\ sessionStorage w1 = sessionStorage w
                          /\ localStorage w1 = localStorage w).
  { destruct (hasWindow w) eqn:Hw.
    - rewrite (memories_checkAuth_pair w Hw). cbv zeta.
      destruct (truthy_str _); eexists; (split; [reflexivity|]);
        split; reflexivity.
    - exists w. unfold MemoriesPage.checkAuth, bind at 1, gets at 1.
      rewrite Hw. cbn [negb]. unfold ret. auto. }
  destruct Hc as (w1 & Hc & Hs & Hl).
  unfold run, MemoriesPage.mountEffect, bind at 1 3 5. rewrite Hc.
  cbn [snd]. unfold bind, emit, log, with_stores.
  cbn [snd events sessionStorage localStorage].
  rewrite <- ?app_assoc. cbn [app]. auto.
Qed.

(** * Further properties of the create-memory dialog *)

Section DialogProperties.

Import CreateMemoryDialog.

Lemma notificationEffect_shape (notification : option jsstring) :
  dialog_trace (notificationEffect notification).
Proof.
  unfold notificationEffect.
  destruct (truthy_str notification); [|constructor].
  destruct (Json.parse _) as [obj|]; simpl; [|constructor].
  destruct (get obj (lit "type")) as [type|]; simpl; [|constructor].
  repeat destruct (strict_eq_str _ _); constructor.
Qed.

Lemma handleCreateMemory_shape (created : option CaughtError) :
  dialog_trace (handleCreateMemory created).
Proof.
  destruct created as [error|]; simpl; [|constructor].
  unfold backendNotification.
  destruct (Json.parse _) as [obj|]; simpl; [|constructor].
  destruct (get obj (lit "type")) as [type|]; simpl; [|constructor].
  destruct (truthy _); [|constructor].
  repeat destruct (strict_eq_str _ _); constructor.
Qed.

Lemma notificationEffect_one_toast (notification : option jsstring) :
  length (toasts (notificationEffect notification))
  = (if truthy_str notification then 1 else 0)%nat.
Proof.
  unfold notificationEffect.
  destruct (truthy_str notification); [|reflexivity].
  destruct (Json.parse _) as [obj|]; simpl; [|reflexivity].
  destruct (get obj (lit "type")) as [type|]; simpl; [|reflexivity].
  repeat destruct (strict_eq_str _ _); reflexivity.
Qed.

(** A refresh that resolves changes nothing; one that rejects adds the
    error toast of the regular error handling behind the effects of a
    'success' or 'info' notification. *)
Lemma handleCreateMemoryAwaiting_run (created : option CaughtError)
    (refreshed : Outcome unit) :
  handleCreateMemoryAwaiting created refreshed
  = handleCreateMemory created
    ++ match created, refreshed with
       | Some error, Throw _ =>
           if refreshesList (handleCreateMemory created)
           then [Toast Error (errorMessage error)]
           else []
       | _, _ => []
       end.
Proof.
  destruct created as [error|]; [|reflexivity].
  unfold handleCreateMemoryAwaiting, handleCreateMemory, innerTry,
    backendNotification, errorMessage.
  destruct (Json.parse _) as [obj|]; simpl;
    [|destruct refreshed; reflexivity].
  destruct (get obj (lit "type")) as [type|]; simpl;
    [|destruct refreshed; reflexivity].
  destruct (truthy _); [|destruct refreshed; reflexivity].
  repeat destruct (strict_eq_str _ _); destruct refreshed; reflexivity.
Qed.

(** X15. In both handlers of the dialog, closing the dialog and fetching
    the list again always go together.  The notification effect shows
    exactly one toast for a non-empty notification and none otherwise.  A
    thrown error shows one toast, and a second one exactly when the awaited
    refresh of a 'success' or 'info' notification rejects: the dialog has
    closed by then, and the error toast of the regular error handling
    follows the toast of the notification. *)
Theorem dialog_closes_iff_refreshes
    (notification : option jsstring) (created : option CaughtError)
    (refreshed : Outcome unit) :
  let shown := notificationEffect notification in
  let caught := handleCreateMemoryAwaiting created refreshed in
  let rejected := match refreshed with Ok _ => false | Throw _ => true end in
  closesDialog shown = refreshesList shown
  /\ closesDialog caught = refreshesList caught
  /\ length (toasts shown) = (if truthy_str notification then 1 else 0)%nat
  /\ length (toasts caught)
     = (match created with
        | None => 0
        | Some _ => if refreshesList caught && rejected then 2 else 1
        end)%nat
  /\ (forall error,
        created = Some error -> refreshesList caught && rejected = true ->
        exists severity message,
          caught = [Toast severity message; SetOpen false; FetchMemories;
                    Toast Error (errorMessage error)]
          /\ (severity = Success \/ severity = Neutral)).
Proof.
  cbv zeta. split; [|split; [|split; [|split]]].
  - destruct (notificationEffect_shape notification); reflexivity.
  - rewrite handleCreateMemoryAwaiting_run.
    destruct (handleCreateMemory_shape created);
      destruct created as [error|]; destruct refreshed; reflexivity.
  - apply notificationEffect_one_toast.
  - rewrite handleCreateMemoryAwaiting_run.
    destruct created as [error|]; [|reflexivity].
    unfold handleCreateMemory, backendNotification.
    destruct (Json.parse _) as [obj|]; simpl;
      [|destruct refreshed; reflexivity].
    destruct (get obj (lit "type")) as [type|]; simpl;
      [|destruct refreshed; reflexivity].
    destruct (truthy _); [|destruct refreshed; reflexivity].
    repeat destruct (strict_eq_str _ _); destruct refreshed; reflexivity.
  - intros error -> Hboth. revert Hboth.
    rewrite handleCreateMemoryAwaiting_run.
    destruct refreshed as [u|e]; [rewrite andb_false_r; discriminate|].
    unfold handleCreateMemory, backendNotification.
    destruct (Json.parse _) as [obj|]; simpl; [|discriminate].
    destruct (get obj (lit "type")) as [type|]; simpl; [|discriminate].
    destruct (truthy _); [|discriminate].
    repeat destruct (strict_eq_str _ _); simpl; try discriminate;
      intros _; eauto.
Qed.

(** A refresh that rejects after a 'success' notification was shown: the
    error toast carries the error's message, which is the JSON text. *)
Lemma dialog_closes_iff_refreshes_witness :
  let error := {| message := Some (json_text "{'type':'success','message':'Saved'}");
                  response_data_detail := JUndefined |} in
  let caught :=
    handleCreateMemoryAwaiting (Some error) (Throw (ErrorObj (lit "Network Error"))) in
  caught
  = [Toast Success (JStr (lit "Saved")); SetOpen false; FetchMemories;
     Toast Error (JStr (json_text "{'type':'success','message':'Saved'}"))]
  /\ exists severity message,
       caught = [Toast severity message; SetOpen false; FetchMemories;
                 Toast Error (errorMessage error)]
       /\ (severity = Success \/ severity = Neutral).
Proof.
  cbv zeta. split; [vm_compute; reflexivity|].
  apply (proj2 (proj2 (proj2 (proj2
           (dialog_closes_iff_refreshes None
              (Some {| message :=
                         Some (json_text "{'type':'success','message':'Saved'}");
                       response_data_detail := JUndefined |})
              (Throw (ErrorObj (lit "Network Error")))))))).
  - reflexivity.
  - vm_compute. reflexivity.
Defined.

(** X16. A thrown error closes the dialog exactly when its message is the
    JSON text of a notification of type 'success' or 'info' with a truthy
    message; every other thrown error leaves the dialog open. *)
Theorem thrown_error_closes_iff_notification (error : CaughtError) :
  closesDialog (handleCreateMemory (Some error)) = true
  <-> exists obj type text,
        Json.parse (to_string_undef (message error)) = Some obj
        /\ get obj (lit "type") = Some (JStr type)
        /\ (type = lit "success" \/ type = lit "info")
        /\ get obj (lit "message") = Some text
        /\ truthy text = true.
Proof.
  split.
  - unfold handleCreateMemory, backendNotification.
    destruct (Json.parse _) as [obj|] eqn:Hp; simpl; [|discriminate].
    destruct (get obj (lit "type")) as [type|] eqn:Ht; simpl; [|discriminate].
    destruct (get obj (lit "message")) as [msg|] eqn:Hm; simpl.
    2:{ destruct obj; simpl in Ht, Hm; discriminate. }
    unfold js_and.
    destruct (truthy type) eqn:Tt; [|destruct (truthy type); discriminate].
    destruct (truthy msg) eqn:Tm; [|discriminate].
    destruct (strict_eq_str type (lit "success")) eqn:E1.
    { apply strict_eq_str_true in E1. subst type. intros _.
      exists obj, (lit "success"), msg. auto 6. }
    destruct (strict_eq_str type (lit "info")) eqn:E2.
    { apply strict_eq_str_true in E2. subst type. intros _.
      exists obj, (lit "info"), msg. auto 6. }
    destruct (strict_eq_str type (lit "warning")); discriminate.
  - intros (obj & type & msg & Hp & Ht & Hkind & Hm & Tm).
    assert (Tt : truthy (JStr type) = true) by (destruct Hkind; subst; reflexivity).
    destruct error as [emsg detail]. simpl in Hp.
    unfold handleCreateMemory, backendNotification. simpl message.
    rewrite Hp. simpl. rewrite Ht. simpl. rewrite Hm. simpl.
    unfold js_and. rewrite Tt, Tm.
    destruct Hkind; subst type; reflexivity.
Qed.

(** X17. A non-empty notification leaves the dialog open exactly when it is
    JSON text whose [type] is the string 'warning' or 'error'; everything
    else, unknown types and text that is no JSON included, closes it. *)
Theorem notification_stays_open_iff (text : jsstring) :
  text <> [] ->
  closesDialog (notificationEffect (Some text)) = false
  <-> exists obj type,
        Json.parse text = Some obj
        /\ get obj (lit "type") = Some (JStr type)
        /\ (type = lit "warning" \/ type = lit "error").
Proof.
  intros Hne. destruct text as [|c r]; [congruence|].
  unfold notificationEffect. simpl truthy_str. cbv iota. simpl or_default.
  split.
  - destruct (Json.parse (c :: r)) as [obj|] eqn:Hp; simpl; [|discriminate].
    destruct (get obj (lit "type")) as [type|] eqn:Ht; simpl; [|discriminate].
    destruct (strict_eq_str type (lit "success")); [discriminate|].
    destruct (strict_eq_str type (lit "warning")) eqn:E1.
    { apply strict_eq_str_true in E1. subst type. eauto 6. }
    destruct (strict_eq_str type (lit "error")) eqn:E2.
    { apply strict_eq_str_true in E2. subst type. eauto 6. }
    destruct (strict_eq_str type (lit "info")); discriminate.
  - intros (obj & type & Hp & Ht & Hkind). rewrite Hp. simpl. rewrite Ht. simpl.
    destruct Hkind; subst type; reflexivity.
Qed.

Lemma notification_stays_open_witness :
  closesDialog (notificationEffect (Some (json_text "{'type':'fatal','message':'x'}")))
  = true
  /\ closesDialog (notificationEffect (Some (json_text "{'type':'error'}"))) = false.
Proof.
  split; [vm_compute; reflexivity|].
  apply (notification_stays_open_iff (json_text "{'type':'error'}")
           ltac:(vm_compute; discriminate)).
  exists (JObj [(lit "type", JStr (lit "error"))]), (lit "error").
  split; [vm_compute; reflexivity|].
  split; [vm_compute; reflexivity|].
  right. reflexivity.
Defined.

(** X18. On a notification text whose parsed value has a truthy [type] and
    a truthy [message], the dialog that checks them and the dialog that does
    not show the same toast and agree on closing and fetching. *)
Theorem dialog_variants_agree (text : jsstring) (obj type message : JsValue) :
  Json.parse text = Some obj ->
  get obj (lit "type") = Some type ->
  get obj (lit "message") = Some message ->
  truthy type = true ->
  truthy message = true ->
  CreateMemoryDialogChecked.notificationEffect (JStr text)
  = notificationEffect (Some text).
Proof.
  intros Hp Ht Hm Tt Tm.
  rewrite (notificationEffect_parsed _ _ _ _ Hp Ht Hm).
  destruct (parse_nonempty _ _ Hp) as (c & r & ->).
  unfold CreateMemoryDialogChecked.notificationEffect,
    CreateMemoryDialogChecked.notificationObj,
    CreateMemoryDialogChecked.dispatch.
  simpl truthy at 1. cbv iota. rewrite Hp, Ht, Hm. simpl default.
  assert (To : truthy obj = true).
  { destruct obj; simpl in Ht; try discriminate Ht; try reflexivity;
      injection Ht as <-; discriminate Tt. }
  rewrite To. unfold js_and. rewrite Tt, Tm. reflexivity.
Qed.

Lemma dialog_variants_agree_witness :
  CreateMemoryDialogChecked.notificationEffect
    (JStr (json_text "{'type':'info','message':'Queued'}"))
  = [Toast Neutral (JStr (lit "Queued")); SetOpen false; FetchMemories].
Proof.
  rewrite (dialog_variants_agree
             (json_text "{'type':'info','message':'Queued'}")
             (JObj [(lit "type", JStr (lit "info"));
                    (lit "message", JStr (lit "Queued"))])
             (JStr (lit "info")) (JStr (lit "Queued"))
             ltac:(vm_compute; reflexivity) ltac:(vm_compute; reflexivity)
             ltac:(vm_compute; reflexivity) eq_refl eq_refl).
  vm_compute. reflexivity.
Defined.

(** X19. The dialog that checks its notification never shows a toast
    without text: the message of every toast it shows is truthy. *)
Theorem checked_dialog_toasts_have_text (notification : JsValue) :
  Forall (fun effect => match effect with
                        | Toast _ message => truthy message = true
                        | _ => True
                        end)
    (CreateMemoryDialogChecked.notificationEffect notification).
Proof.
  unfold CreateMemoryDialogChecked.notificationEffect.
  destruct (truthy notification) eqn:Tn; [|constructor].
  destruct (CreateMemoryDialogChecked.notificationObj notification) as [obj|] eqn:Ho.
  - destruct (truthy obj); [|constructor].
    unfold js_and.
    destruct (truthy (default JUndefined (get obj (lit "type")))) eqn:Tt.
    + destruct (truthy (default JUndefined (get obj (lit "message")))) eqn:Tm;
        [|constructor].
      unfold CreateMemoryDialogChecked.dispatch.
      repeat destruct (strict_eq_str _ _); repeat constructor; exact Tm.
    + rewrite Tt. constructor.
  - repeat constructor.
    destruct notification; try reflexivity. exact Tn.
Qed.

(** X20. On a notification text whose parsed value is falsy or lacks a
    truthy [type] or [message], the dialog that checks them does nothing at
    all, while the other dialog still shows a toast. *)
Theorem checked_dialog_ignores_incomplete (text : jsstring) (obj : JsValue) :
  Json.parse text = Some obj ->
  truthy obj
  && truthy (default JUndefined (get obj (lit "type")))
  && truthy (default JUndefined (get obj (lit "message"))) = false ->
  CreateMemoryDialogChecked.notificationEffect (JStr text) = []
  /\ length (toasts (notificationEffect (Some text))) = 1%nat.
Proof.
  intros Hp Hinc. destruct (parse_nonempty _ _ Hp) as (c & r & ->).
  split.
  - unfold CreateMemoryDialogChecked.notificationEffect,
      CreateMemoryDialogChecked.notificationObj.
    simpl truthy at 1. cbv iota. rewrite Hp.
    destruct (truthy obj); [|reflexivity]. unfold js_and.
    destruct (truthy (default JUndefined (get obj (lit "type")))) eqn:Tt.
    + simpl in Hinc. rewrite Hinc. reflexivity.
    + rewrite Tt. reflexivity.
  - exact (notificationEffect_one_toast (Some (c :: r))).
Qed.

Lemma checked_dialog_ignores_incomplete_witness :
  CreateMemoryDialogChecked.notificationEffect (JStr (lit "null")) = []
  /\ notificationEffect (Some (lit "null"))
     = [Toast Success (JStr (lit "null")); SetOpen false; FetchMemories].
Proof.
  split; [|vm_compute; reflexivity].
  exact (proj1 (checked_dialog_ignores_incomplete (lit "null") JNull
                  ltac:(vm_compute; reflexivity) eq_refl)).
Defined.

End DialogProperties.

(** * Properties of the UI configuration *)

(** X21. Neither version of the configuration service throws, so the hook
    never takes its own fallback on NEXT_PUBLIC_AUTH_MODE: once loaded, the
    configuration is the backend's answer, or else what
    NEXT_PUBLIC_ENABLE_APPS says (apps are on unless it is exactly 'false'),
    and NEXT_PUBLIC_AUTH_MODE only decides what is shown while loading. *)
Theorem ui_config_after_load (e : UiConfig.Env) (response : Outcome UiConfig.UIConfig) :
  let local := UiConfig.useUIConfig e (UiConfig.getUIConfig_local e) in
  let remote := UiConfig.useUIConfig e (UiConfig.getUIConfig_remote e response) in
  UiConfig.loading local = false
  /\ UiConfig.loading remote = false
  /\ UiConfig.enable_apps (UiConfig.config local)
     = negb (bool_decide (UiConfig.NEXT_PUBLIC_ENABLE_APPS e = Some (lit "false")))
  /\ UiConfig.config remote
     = match response with
       | Ok data => data
       | Throw _ => UiConfig.config local
       end
  /\ forall e',
       UiConfig.NEXT_PUBLIC_ENABLE_APPS e' = UiConfig.NEXT_PUBLIC_ENABLE_APPS e ->
       UiConfig.useUIConfig e' (UiConfig.getUIConfig_local e') = local.
Proof.
  cbv zeta. repeat split.
  - destruct response; reflexivity.
  - destruct response; reflexivity.
  - intros e' He'. unfold UiConfig.useUIConfig, UiConfig.getUIConfig_local,
      UiConfig.fromEnvironment. simpl. rewrite He'. reflexivity.
Qed.

(** Keycloak-only mode with apps not switched off: hidden while loading,
    shown afterwards. *)
Lemma ui_config_after_load_witness :
  let e := {| UiConfig.NEXT_PUBLIC_ENABLE_APPS := None;
              UiConfig.NEXT_PUBLIC_AUTH_MODE := Some (lit "keycloak-only") |} in
  UiConfig.enable_apps (UiConfig.config (UiConfig.initialState e)) = false
  /\ UiConfig.enable_apps
       (UiConfig.config (UiConfig.useUIConfig e (UiConfig.getUIConfig_local e)))
     = true.
Proof.
  split; [reflexivity|].
  exact (proj1 (proj2 (proj2 (ui_config_after_load
                                {| UiConfig.NEXT_PUBLIC_ENABLE_APPS := None;
                                   UiConfig.NEXT_PUBLIC_AUTH_MODE :=
                                     Some (lit "keycloak-only") |}
                                (Throw NonError))))).
Defined.

(** * Properties of the memories page *)

Section MemoriesViewProperties.

Import MemoriesView.

Lemma trimStart_nil (s : jsstring) :
  trimStart s = [] <-> forallb is_js_space s = true.
Proof.
  induction s as [|c s IH]; simpl; [tauto|].
  destruct (is_js_space c); simpl; [exact IH|].
  split; discriminate.
Qed.

(** What [trimStart] leaves begins with a code unit that is no space. *)
Lemma trimStart_cons (s r : jsstring) (c : N) :
  trimStart s = c :: r -> is_js_space c = false.
Proof.
  induction s as [|d s IH]; simpl; [discriminate|].
  destruct (is_js_space d) eqn:Hd; [exact IH|].
  intros [= <- _]. exact Hd.
Qed.

Lemma trimStart_blank_suffix (s : jsstring) :
  forallb is_js_space s = false -> trimStart s <> [].
Proof.
  intros H Hnil. apply trimStart_nil in Hnil. congruence.
Qed.

Lemma forallb_rev (f : N -> bool) (s : jsstring) :
  forallb f (rev s) = forallb f s.
Proof.
  induction s as [|c s IH]; simpl; [reflexivity|].
  rewrite forallb_app, IH. simpl. rewrite andb_true_r. apply andb_comm.
Qed.

Lemma trim_nil (s : jsstring) :
  trim s = [] <-> forallb is_js_space s = true.
Proof.
  unfold trim. split.
  - intros H. apply (f_equal (@rev N)) in H. rewrite rev_involutive in H.
    simpl in H. apply trimStart_nil in H. rewrite forallb_rev in H.
    destruct (trimStart s) as [|c r] eqn:Hs; [apply trimStart_nil; exact Hs|].
    simpl in H. apply andb_true_iff in H as [Hc _].
    apply trimStart_cons in Hs. congruence.
  - intros H. apply trimStart_nil in H. rewrite H. reflexivity.
Qed.

(** X22. Creating a memory from the page: a text made of white space only
    (any of the code units [trim] removes, or none) does nothing at all and
    keeps the button disabled.  Any other text is sent as it was typed, not
    trimmed; the text is cleared and the dialog closed only when the request
    succeeds, a failure raises an alert instead, and the creating flag is
    reset either way. *)
Theorem page_create_memory (Memory : Type) (content : jsstring)
    (created : Outcome unit) (creating : bool) :
  (forallb is_js_space content = true ->
   handleCreateMemory (Memory := Memory) content created = []
   /\ createDisabled content creating = true)
  /\ (forallb is_js_space content = false ->
      handleCreateMemory (Memory := Memory) content created
      = [SetCreating true; CreateMemory content]
        ++ match created with
           | Ok _ => [SetNewMemoryContent []; SetShowCreateDialog false;
                      FetchMemories]
           | Throw _ => [Alert (lit "Failed to create memory")]
           end
        ++ [SetCreating false]
      /\ createDisabled content creating = creating).
Proof.
  unfold handleCreateMemory, createDisabled. split; intros H.
  - apply trim_nil in H. rewrite H. auto.
  - destruct (trim content) as [|c r] eqn:Ht; [|auto].
    apply trim_nil in Ht. congruence.
Qed.

(** A no-break space and a line feed are blank; a padded word is not. *)
Lemma page_create_memory_witness :
  handleCreateMemory (Memory := unit) [160; 10] (Ok tt) = []
  /\ handleCreateMemory (Memory := unit) (lit " hi ") (Throw NonError)
     = [SetCreating true; CreateMemory (lit " hi ");
        Alert (lit "Failed to create memory"); SetCreating false].
Proof.
  split.
  - exact (proj1 (proj1 (page_create_memory unit [160; 10] (Ok tt) false) eq_refl)).
  - exact (proj1 (proj2 (page_create_memory unit (lit " hi ") (Throw NonError) false)
                    eq_refl)).
Defined.

Lemma startsWith_spec (s t : jsstring) :
  startsWith s t = true <-> exists post, s = t ++ post.
Proof.
  revert s. induction t as [|c t IH]; intros s; simpl.
  - split; [intros _; exists s; reflexivity|reflexivity].
  - destruct s as [|d s]; [split; [discriminate|intros [post [=]]]|].
    rewrite andb_true_iff, N.eqb_eq, IH. split.
    + intros [-> [post ->]]. eauto.
    + intros [post [= -> ->]]. eauto.
Qed.

(** [includes] is the search for a contiguous occurrence. *)
Lemma includes_spec (s t : jsstring) :
  includes s t = true <-> exists pre post, s = pre ++ t ++ post.
Proof.
  induction s as [|d s IH]; simpl.
  - rewrite orb_false_r, startsWith_spec. split.
    + intros [post H]. exists [], post. exact H.
    + intros (pre & post & H). destruct pre as [|x pre]; [eauto|discriminate H].
  - rewrite orb_true_iff, startsWith_spec, IH. split.
    + intros [[post H]|(pre & post & H)].
      * exists [], post. exact H.
      * exists (d :: pre), post. simpl. congruence.
    + intros (pre & post & H). destruct pre as [|x pre].
      * left. eauto.
      * right. injection H as -> H. eauto.
Qed.

Lemma ascii_lower_upper (c : N) : ascii_lower (ascii_upper c) = ascii_lower c.
Proof.
  unfold ascii_lower, ascii_upper.
  destruct ((97 <=? c) && (c <=? 122)) eqn:Hl.
  - apply andb_true_iff in Hl as [H1 H2].
    apply N.leb_le in H1. apply N.leb_le in H2.
    replace ((65 <=? c - 32) && (c - 32 <=? 90)) with true
      by (symmetry; apply andb_true_iff; split; apply N.leb_le; lia).
    replace ((65 <=? c) && (c <=? 90)) with false
      by (symmetry; apply andb_false_iff; right; apply N.leb_gt; lia).
    lia.
  - reflexivity.
Qed.

Lemma is_ascii_upper (s : jsstring) :
  is_ascii s = true -> is_ascii (List.map ascii_upper s) = true.
Proof.
  unfold is_ascii. induction s as [|c s IH]; simpl; [reflexivity|].
  rewrite !andb_true_iff. intros [Hc Hs]. split; [|auto].
  apply N.ltb_lt in Hc. apply N.ltb_lt. unfold ascii_upper.
  destruct ((97 <=? c) && (c <=? 122)); lia.
Qed.

(** Lowering ignores the letter case of text below 128. *)
Lemma lower_of_upper (toLowerCase : jsstring -> jsstring) (s : jsstring) :
  lowers_ascii toLowerCase ->
  is_ascii s = true ->
  toLowerCase (List.map ascii_upper s) = toLowerCase s.
Proof.
  intros Hlow Hs. rewrite (Hlow _ (is_ascii_upper _ Hs)), (Hlow _ Hs).
  rewrite List.map_map. apply List.map_ext. intros c. apply ascii_lower_upper.
Qed.

Lemma filter_sublist {A : Type} (f : A -> bool) (l : list A) :
  sublist (List.filter f l) l.
Proof.
  induction l as [|x l IH]; simpl; [constructor|].
  destruct (f x); [apply sublist_skip|apply sublist_cons]; exact IH.
Qed.

(** X24. The search box: the memories shown are those of the list, in
    their order, whose lowered content contains the lowered search term as a
    contiguous run of code units; an empty search term shows the whole list;
    and a search term below 128 finds the same memories in upper case. *)
Theorem search_filter (Memory : Type) (toLowerCase : jsstring -> jsstring)
    (content : Memory -> jsstring) (memories : list Memory) :
  lowers_ascii toLowerCase ->
  filteredMemories toLowerCase content memories [] = memories
  /\ forall searchTerm,
       sublist (filteredMemories toLowerCase content memories searchTerm) memories
       /\ (forall memory,
             In memory (filteredMemories toLowerCase content memories searchTerm)
             <-> In memory memories
                 /\ exists pre post,
                      toLowerCase (content memory)
                      = pre ++ toLowerCase searchTerm ++ post)
       /\ (is_ascii searchTerm = true ->
           filteredMemories toLowerCase content memories
             (List.map ascii_upper searchTerm)
           = filteredMemories toLowerCase content memories searchTerm).
Proof.
  intros Hlow. unfold filteredMemories. split; [|intros searchTerm; split; [|split]].
  - rewrite (Hlow [] eq_refl). simpl.
    induction memories as [|m l IH]; simpl; [reflexivity|].
    replace (includes (toLowerCase (content m)) []) with true
      by (symmetry; apply includes_spec; exists [], (toLowerCase (content m));
          reflexivity).
    f_equal. exact IH.
  - apply filter_sublist.
  - intros memory. rewrite filter_In, includes_spec. reflexivity.
  - intros Hs. rewrite (lower_of_upper _ _ Hlow Hs). reflexivity.
Qed.

Lemma search_filter_witness :
  filteredMemories (List.map ascii_lower) (fun m : jsstring => m)
    [lit "Lives in Paris"; lit "Likes tea"; lit "PARIS trip"] (lit "PARIS")
  = [lit "Lives in Paris"; lit "PARIS trip"].
Proof.
  assert (Hlow : lowers_ascii (List.map ascii_lower)) by (intros s _; reflexivity).
  destruct (search_filter jsstring (List.map ascii_lower) (fun m => m)
              [lit "Lives in Paris"; lit "Likes tea"; lit "PARIS trip"] Hlow)
    as [_ H].
  destruct (H (lit "paris")) as (_ & _ & Hcase).
  specialize (Hcase eq_refl).
  change (List.map ascii_upper (lit "paris")) with (lit "PARIS") in Hcase.
  rewrite Hcase. vm_compute. reflexivity.
Defined.

Lemma truthy_str_map (f : N -> N) (p : jsstring) :
  truthy_str (Some (List.map f p)) = truthy_str (Some p).
Proof. destruct p; reflexivity. Qed.

Lemma or_default_map (f : N -> N) (p : jsstring) :
  or_default (Some (List.map f p)) [] = List.map f (or_default (Some p) []).
Proof. destruct p; reflexivity. Qed.

Lemma or_default_some (p : jsstring) : or_default (Some p) [] = p.
Proof. destruct p; reflexivity. Qed.

(** X25. Priority badges: there is a style for every priority that is
    present and not empty and for no other; a priority below 128 gets the
    same style in upper case; and one that contains 'high', 'urgent',
    'critical' or 'important' in any letter case is red, also when it
    contains 'medium' or 'normal' as well. *)
Theorem priority_style (toLowerCase : jsstring -> jsstring) (priority : jsstring) :
  lowers_ascii toLowerCase ->
  is_ascii priority = true ->
  (forall p, getPriorityStyle toLowerCase p = None <-> ~ nonempty p)
  /\ getPriorityStyle toLowerCase (Some (List.map ascii_upper priority))
     = getPriorityStyle toLowerCase (Some priority)
  /\ forall word,
       In word [lit "high"; lit "urgent"; lit "critical"; lit "important"] ->
       includes (List.map ascii_lower priority) word = true ->
       borderColor <$> getPriorityStyle toLowerCase (Some priority)
       = Some (lit "border-red-500").
Proof.
  intros Hlow Hp. split; [|split].
  - intros p. rewrite <- truthy_str_nonempty. unfold getPriorityStyle.
    destruct (truthy_str p); simpl.
    + destruct (isHighPriority _ _); [|destruct (isMediumPriority _ _)];
        split; try discriminate; intros H; exfalso; apply H; reflexivity.
    + split; [discriminate|reflexivity].
  - unfold getPriorityStyle, isHighPriority, isMediumPriority.
    rewrite truthy_str_map, or_default_map, !or_default_some.
    rewrite (lower_of_upper _ _ Hlow Hp). reflexivity.
  - intros word Hword Hinc.
    assert (Hne : truthy_str (Some priority) = true).
    { destruct priority as [|c r]; [|reflexivity].
      simpl in Hword, Hinc.
      destruct Hword as [<-|[<-|[<-|[<-|[]]]]]; discriminate Hinc. }
    unfold getPriorityStyle, isHighPriority. rewrite Hne. cbn [negb].
    rewrite or_default_some, (Hlow _ Hp).
    replace (includes (List.map ascii_lower priority) (lit "high")
             || includes (List.map ascii_lower priority) (lit "urgent")
             || includes (List.map ascii_lower priority) (lit "critical")
             || includes (List.map ascii_lower priority) (lit "important"))
      with true; [reflexivity|].
    symmetry. rewrite !orb_true_iff.
    destruct Hword as [<-|[<-|[<-|[<-|[]]]]]; auto.
Qed.

Lemma priority_style_witness :
  borderColor <$> getPriorityStyle (List.map ascii_lower)
                    (Some (lit "Normal but URGENT"))
  = Some (lit "border-red-500").
Proof.
  assert (Hlow : lowers_ascii (List.map ascii_lower)) by (intros s _; reflexivity).
  destruct (priority_style (List.map ascii_lower) (lit "Normal but URGENT")
              Hlow eq_refl) as (_ & _ & Hred).
  apply (Hred (lit "urgent")).
  - right. left. reflexivity.
  - vm_compute. reflexivity.
Defined.

End MemoriesViewProperties.

(** * Composition of the login paths *)

(** X26. The two SSO paths agree on the session-scoped identity: for the
    same provider user and token, the callback page and the login page's
    check on mount store the same user_id, user_name, access_token and
    auth_type in the session-scoped store; only the callback also stores
    user_email and the durable copy. *)
Theorem sso_paths_agree (w1 w2 : World) (um : UserManagerSettings)
    (live user : User) (again : option User) :
  result KeycloakService.initialize w1 = Ok true ->
  signinRedirectCallback (oidc w1) = Ok (Some user) ->
  getUser_answer (oidc w1) (getUserCalls w1) = Ok again ->
  userManager (service w2) = Some um ->
  getUser_answer (oidc w2) (getUserCalls w2) = Ok (Some live) ->
  default false (expired live) = false ->
  getUser_answer (oidc w2) (S (getUserCalls w2)) = Ok (Some user) ->
  getUser_answer (oidc w2) (S (S (getUserCalls w2))) = Ok again ->
  let callback := run AuthCallbackPage.handleCallback w1 in
  let mounted := run LoginPage.checkKeycloakAuth w2 in
  (forall key,
     In key [lit "user_id"; lit "user_name"; lit "access_token"; lit "auth_type"] ->
     sessionStorage callback !! key = sessionStorage mounted !! key)
  /\ sessionStorage callback !! lit "user_email"
     = Some (KeycloakService.getUserEmail user)
  /\ sessionStorage mounted !! lit "user_email" = sessionStorage w2 !! lit "user_email"
  /\ localStorage mounted = localStorage w2.
Proof.
  intros Hinit Hcb Hget Hum H1 Hexp H2 H3. cbv zeta.
  destruct (handleCallback_success w1 user again Hinit Hcb Hget) as (Hs & _ & _).
  destruct (checkKeycloakAuth_signed_in w2 um live user again Hum H1 Hexp H2 H3)
    as (Hs2 & Hl2 & _).
  cbv zeta in Hs, Hs2. rewrite Hs, Hs2, Hl2.
  split; [|split; [|split]].
  - intros key [<-|[<-|[<-|[<-|[]]]]];
      repeat (first [ rewrite lookup_insert_eq
                    | rewrite lookup_insert_ne by key_neq ]);
      reflexivity.
  - rewrite !lookup_insert_ne by key_neq. apply lookup_insert_eq.
  - rewrite !lookup_insert_ne by key_neq. reflexivity.
  - reflexivity.
Qed.

Lemma sso_paths_agree_witness :
  let w1 := tab env_keycloak (oidc_with alice) ∅ ∅ in
  let w2 := run KeycloakService.initialize w1 in
  sessionStorage (run AuthCallbackPage.handleCallback w1) !! lit "user_name"
  = sessionStorage (run LoginPage.checkKeycloakAuth w2) !! lit "user_name".
Proof.
  cbv zeta.
  set (w1 := tab env_keycloak (oidc_with alice) ∅ ∅).
  assert (Hum : exists um, userManager (service (run KeycloakService.initialize w1))
                           = Some um) by (eexists; reflexivity).
  destruct Hum as [um Hum].
  pose proof (sso_paths_agree w1 (run KeycloakService.initialize w1) um
                alice alice (Some alice)
                eq_refl eq_refl eq_refl Hum eq_refl eq_refl eq_refl eq_refl) as H.
  cbv zeta in H. destruct H as [Hkeys _].
  apply Hkeys. right. left. reflexivity.
Defined.


